(** * elora-web: the role screen and the user screen of the admin console

    A shallow embedding of the two React screen components
      - [RolesPage]  (role roster and permission-matrix editor), and
      - [UsersPage]  (user roster and editor, app/(dashboard)/dashboard/page.tsx),
    with the properties their specification states about them.

    Modelling conventions.
    - Component state ([useState] cells) is a record; an event handler is a
      function from the state (and from the answers of the environment it
      awaits: the API response, the confirmation dialog) to the next state
      and the list of effects it issued, in program order.
    - A handler that can throw outside a [try] returns an [option]; [None] is
      the uncaught [TypeError].
    - A JS object used as a dictionary is a [gmap string _]; the insertion
      order of its keys is not modelled.
    - Strings are sequences of 8-bit code units.  The case mapping is the one
      of the 7-bit range; statements that depend on it assume [ascii_only]. *)

From Stdlib Require Import String Ascii List Bool Arith Lia.
From stdpp Require Import base gmap strings list fin_maps.
From Equations Require Import Equations.
Import ListNotations.

Local Open Scope string_scope.

(** * JavaScript values *)

Module JS.

(** A string is truthy iff it is not empty. *)
Definition truthy (s : string) : bool := negb (String.eqb s "").

(** [v || d] where [v] is a string or [undefined] ([None]). *)
Definition or_else (v : option string) (d : string) : string :=
  match v with
  | Some s => if truthy s then s else d
  | None => d
  end.

(** [a === b] on strings. *)
Definition strict_eq (a b : string) : bool := String.eqb a b.

(** ** [String.prototype.toUpperCase], 7-bit range

    The letters a to z are mapped, every other code unit is left as it is.
    That is what the source does for code units below 128 only: above, the
    runtime maps further letters and may lengthen the string.  Statements
    that depend on the case mapping assume [ascii_only]. *)

Definition toUpperCaseUnit (c : ascii) : ascii :=
  let n := nat_of_ascii c in
  if ((97 <=? n) && (n <=? 122))%nat then ascii_of_nat (n - 32) else c.

Fixpoint toUpperCase (s : string) : string :=
  match s with
  | EmptyString => EmptyString
  | String c r => String (toUpperCaseUnit c) (toUpperCase r)
  end.



(** The code units the case mapping above is exact for. *)
Definition ascii_unit (c : ascii) : bool := (nat_of_ascii c <? 128)%nat.

Fixpoint ascii_only (s : string) : bool :=
  match s with
  | EmptyString => true
  | String c r => ascii_unit c && ascii_only r
  end.

Definition isLowerCaseLetter (c : ascii) : bool :=
  let n := nat_of_ascii c in ((97 <=? n) && (n <=? 122))%nat.

(** ** The regular expression class [\s] on 8-bit code units:
    TAB, LF, VT, FF, CR, SPACE and NO-BREAK SPACE. *)
Definition isWhiteSpace (c : ascii) : bool :=
  let n := nat_of_ascii c in
  (((9 <=? n) && (n <=? 13)) || (n =? 32) || (n =? 160))%nat.

(** The greedy match of [\s+] at the start of the rest of the input: what
    is left once the longest whitespace prefix is consumed. *)
Fixpoint skipWhiteSpace (s : string) : string :=
  match s with
  | EmptyString => EmptyString
  | String c r => if isWhiteSpace c then skipWhiteSpace r else s
  end.

(** [s.replace(/\s+/g, "_")]: scan from the left; where [\s+] matches, the
    whole match is replaced by one underscore and the scan goes on behind
    it; any other code unit is copied. *)
Equations? replaceWhiteSpaceRuns (s : string) : string
  by wf (String.length s) lt :=
  replaceWhiteSpaceRuns EmptyString := EmptyString;
  replaceWhiteSpaceRuns (String c r) with isWhiteSpace c => {
    | true := String "_" (replaceWhiteSpaceRuns (skipWhiteSpace r));
    | false := String c (replaceWhiteSpaceRuns r) }.
Proof.
  all: simpl; try lia.
  enough (String.length (skipWhiteSpace r) <= String.length r) by lia.
  clear; induction r as [|c r IH]; simpl; [lia|].
  destruct (isWhiteSpace c); simpl; lia.
Qed.

(** In the words of the specification: every run of whitespace is replaced
    with a single underscore.  One pass that remembers whether the previous
    code unit was whitespace: the first unit of a run gives the underscore,
    the further units of the run give nothing. *)
Fixpoint spec_collapseRuns (inRun : bool) (s : string) : string :=
  match s with
  | EmptyString => EmptyString
  | String c r =>
      if isWhiteSpace c
      then (if inRun then spec_collapseRuns true r
            else String "_" (spec_collapseRuns true r))
      else String c (spec_collapseRuns false r)
  end.

(** Strings as lists of code units, for statements about their members. *)
Fixpoint units (s : string) : list ascii :=
  match s with
  | EmptyString => []
  | String c r => c :: units r
  end.

(** A string without whitespace, with nothing but whitespace, and one that
    does not begin with whitespace. *)
Definition noWhiteSpace (s : string) : Prop :=
  Forall (fun c => isWhiteSpace c = false) (units s).

Definition allWhiteSpace (s : string) : Prop :=
  Forall (fun c => isWhiteSpace c = true) (units s).

Definition startsWithWhiteSpace (s : string) : bool :=
  match s with
  | EmptyString => false
  | String c _ => isWhiteSpace c
  end.

End JS.

(** * Outcome of an awaited API call *)

(** What the [catch] blocks read of a rejection:
    [error.response?.data?.message], [None] when any link is undefined. *)
Record ApiError := { response_message : option string }.

Inductive Outcome (A : Type) :=
| Resolved (data : A)
| Rejected (error : ApiError).
Arguments Resolved {A} data.
Arguments Rejected {A} error.

(** Effects of a handler, parametric in the type of request bodies. *)
Inductive Effect (B : Type) :=
| ApiGet (path : string)
| ApiPost (path : string) (body : B)
| ApiPut (path : string) (body : B)
| ApiDelete (path : string)
| Confirm (message : string)
| ToastSuccess (message : string)
| ToastError (message : string)
| ConsoleError.
Arguments ApiGet {B} path.
Arguments ApiPost {B} path body.
Arguments ApiPut {B} path body.
Arguments ApiDelete {B} path.
Arguments Confirm {B} message.
Arguments ToastSuccess {B} message.
Arguments ToastError {B} message.
Arguments ConsoleError {B}.

Definition isApiCall {B} (e : Effect B) : bool :=
  match e with
  | ApiGet _ | ApiPost _ _ | ApiPut _ _ | ApiDelete _ => true
  | _ => false
  end.

Definition isToast {B} (e : Effect B) : bool :=
  match e with
  | ToastSuccess _ | ToastError _ => true
  | _ => false
  end.

(** * The types of [src/types/auth] *)

Module Auth.

(** Modelled from the spec: the declaration of [PermissionSet] in
    src/types/auth, which is not part of the sources at hand: four
    independent booleans, view, create, edit and delete. *)
Record PermissionSet := {
  view : bool;
  create : bool;
  edit : bool;
  delete : bool;
}.

(** [keyof PermissionSet]. *)
Inductive Action := Aview | Acreate | Aedit | Adelete.

(** [ps[action]]. *)
Definition getFlag (ps : PermissionSet) (a : Action) : bool :=
  match a with
  | Aview => view ps
  | Acreate => create ps
  | Aedit => edit ps
  | Adelete => delete ps
  end.

(** [{ ...ps, [action]: b }]. *)
Definition setFlag (ps : PermissionSet) (a : Action) (b : bool) : PermissionSet :=
  match a with
  | Aview => {| view := b; create := create ps; edit := edit ps; delete := delete ps |}
  | Acreate => {| view := view ps; create := b; edit := edit ps; delete := delete ps |}
  | Aedit => {| view := view ps; create := create ps; edit := b; delete := delete ps |}
  | Adelete => {| view := view ps; create := create ps; edit := edit ps; delete := b |}
  end.

(** Modelled from the spec: the declaration of [Role] in src/types/auth:
    identifier, display name, code, and a mapping from module name to a
    permission set. *)
Record Role := {
  role_id : string;
  role_name : string;
  role_code : string;
  role_permissions : gmap string PermissionSet;
}.

(** Modelled from the spec: the declaration of [User] in src/types/auth:
    identifier, name, email, optional assigned role, active flag. *)
Record User := {
  user_id : string;
  user_name : string;
  user_email : string;
  user_role : option Role;
  user_isActive : bool;
}.

(** [{ ...user, role: r }]. *)
Definition withRole (u : User) (r : option Role) : User :=
  {| user_id := user_id u; user_name := user_name u; user_email := user_email u;
     user_role := r; user_isActive := user_isActive u |}.

End Auth.

(** [{ ...a, ...b }] on dictionaries: the keys of both, [b] winning. *)
Definition spread {V} (a b : gmap string V) : gmap string V := b ∪ a.


(** * The role screen *)

Module RolesPage.
Import Auth.

(** The modules available in the system. *)
Definition MODULES : list string := ["user"; "role"; "recce"; "installation"].

Definition emptyPermissionSet : PermissionSet :=
  {| view := false; create := false; edit := false; delete := false |}.

(** [MODULES.reduce((acc, module) => { acc[module] = {...}; return acc }, {})]. *)
Definition generateDefaultPermissions : gmap string PermissionSet :=
  fold_left (fun acc module => <[module := emptyPermissionSet]> acc) MODULES ∅.

(** The draft held in [formData]. *)
Record FormData := {
  name : string;
  code : string;
  permissions : gmap string PermissionSet;
}.

Record State := {
  roles : list Role;
  isLoading : bool;
  isModalOpen : bool;
  isSubmitting : bool;
  editingRole : option Role;
  formData : FormData;
}.

(** The initial values of the [useState] cells. *)
Definition init : State :=
  {| roles := []; isLoading := true; isModalOpen := false; isSubmitting := false;
     editingRole := None;
     formData := {| name := ""; code := ""; permissions := generateDefaultPermissions |} |}.

Definition setFormData (fd : FormData) (st : State) : State :=
  {| roles := roles st; isLoading := isLoading st; isModalOpen := isModalOpen st;
     isSubmitting := isSubmitting st; editingRole := editingRole st; formData := fd |}.

Definition setIsModalOpen (b : bool) (st : State) : State :=
  {| roles := roles st; isLoading := isLoading st; isModalOpen := b;
     isSubmitting := isSubmitting st; editingRole := editingRole st;
     formData := formData st |}.

Definition setIsSubmitting (b : bool) (st : State) : State :=
  {| roles := roles st; isLoading := isLoading st; isModalOpen := isModalOpen st;
     isSubmitting := b; editingRole := editingRole st; formData := formData st |}.

Definition setIsLoading (b : bool) (st : State) : State :=
  {| roles := roles st; isLoading := b; isModalOpen := isModalOpen st;
     isSubmitting := isSubmitting st; editingRole := editingRole st;
     formData := formData st |}.

Definition setEditingRole (r : option Role) (st : State) : State :=
  {| roles := roles st; isLoading := isLoading st; isModalOpen := isModalOpen st;
     isSubmitting := isSubmitting st; editingRole := r; formData := formData st |}.

Definition setRoles (l : list Role) (st : State) : State :=
  {| roles := l; isLoading := isLoading st; isModalOpen := isModalOpen st;
     isSubmitting := isSubmitting st; editingRole := editingRole st;
     formData := formData st |}.

Abbreviation Eff := (Effect FormData).

(** [fetchData]: the answer of [GET /roles] is [res]. *)
Definition fetchData (res : Outcome (list Role)) (st : State) : State * list Eff :=
  match res with
  | Resolved data =>
      (setIsLoading false (setRoles data (setIsLoading true st)), [ApiGet "/roles"])
  | Rejected _ =>
      (setIsLoading false (setIsLoading true st),
       [ApiGet "/roles"; ToastError "Failed to load roles."])
  end.

Definition openCreateModal (st : State) : State :=
  setIsModalOpen true
    (setFormData {| name := ""; code := ""; permissions := generateDefaultPermissions |}
       (setEditingRole None st)).

Definition mergedPermissions (role : Role) : gmap string PermissionSet :=
  spread generateDefaultPermissions (role_permissions role).

Definition openEditModal (role : Role) (st : State) : State :=
  setIsModalOpen true
    (setFormData {| name := role_name role; code := role_code role;
                    permissions := mergedPermissions role |}
       (setEditingRole (Some role) st)).

(** The updater passed to [setFormData] by [togglePermission].  Reading
    [prev.permissions[module][action]] of a module without an entry is a
    property access on [undefined]: the updater throws. *)
Definition togglePermission (module : string) (action : Action) (prev : FormData)
  : option FormData :=
  match permissions prev !! module with
  | None => None
  | Some ps =>
      Some {| name := name prev; code := code prev;
              permissions :=
                <[module := setFlag ps action (negb (getFlag ps action))]> (permissions prev) |}
  end.

(** [formData.permissions[module]?.[action]]: [None] is [undefined]. *)
Definition permissionCell (fd : FormData) (module : string) (action : Action)
  : option bool :=
  match permissions fd !! module with
  | None => None
  | Some ps => Some (getFlag ps action)
  end.

(** The [checked] attribute: [formData.permissions[module]?.[action] || false]. *)
Definition checked (fd : FormData) (module : string) (action : Action) : bool :=
  match permissionCell fd module action with
  | Some b => b || false
  | None => false
  end.

(** The [onChange] handlers of the two text inputs. *)
Definition onNameChange (value : string) (st : State) : State :=
  setFormData {| name := value; code := code (formData st);
                 permissions := permissions (formData st) |} st.

Definition codeInputValue (value : string) : string :=
  JS.replaceWhiteSpaceRuns (JS.toUpperCase value).

Definition onCodeChange (value : string) (st : State) : State :=
  setFormData {| name := name (formData st); code := codeInputValue value;
                 permissions := permissions (formData st) |} st.

(** One more character typed at the end of the code input: the input is
    controlled, so the handler receives the stored code followed by the
    character. *)
Definition typeCharacter (c : ascii) (st : State) : State :=
  onCodeChange (code (formData st) +:+ String c "") st.

(** [disabled={!!editingRole}] on the code input. *)
Definition codeInputDisabled (st : State) : bool :=
  match editingRole st with Some _ => true | None => false end.

(** [handleSubmit]: [res] answers the [PUT] or [POST], [refetch] the
    [GET /roles] of the [fetchData] that follows a success. *)
Definition handleSubmit (res : Outcome unit) (refetch : Outcome (list Role))
  (st : State) : State * list Eff :=
  let call :=
    match editingRole st with
    | Some r => ApiPut ("/roles/" +:+ role_id r) (formData st)
    | None => ApiPost "/roles" (formData st)
    end in
  let done :=
    match editingRole st with
    | Some _ => "Role updated successfully"
    | None => "Role created successfully"
    end in
  match res with
  | Resolved _ =>
      let '(st1, effs) := fetchData refetch (setIsSubmitting true st) in
      (setIsSubmitting false (setIsModalOpen false st1),
       call :: ToastSuccess done :: effs)
  | Rejected e =>
      (setIsSubmitting false st,
       [call; ConsoleError;
        ToastError (JS.or_else (response_message e) "Operation failed")])
  end.

Definition confirmDelete : string :=
  "Delete this role? Users assigned to this role might lose access.".

(** [handleDelete]: [confirmed] is the answer of [window.confirm]. *)
Definition handleDelete (roleId : string) (confirmed : bool) (res : Outcome unit)
  (st : State) : State * list Eff :=
  if negb confirmed then (st, [Confirm confirmDelete])
  else
    match res with
    | Resolved _ =>
        (setRoles (List.filter (fun r => negb (JS.strict_eq (role_id r) roleId)) (roles st)) st,
         [Confirm confirmDelete; ApiDelete ("/roles/" +:+ roleId);
          ToastSuccess "Role deleted successfully"])
    | Rejected e =>
        (st,
         [Confirm confirmDelete; ApiDelete ("/roles/" +:+ roleId);
          ToastError (JS.or_else (response_message e) "Failed to delete role")])
    end.

(** ** What the render puts on a role card *)

Inductive Control :=
| EditButton (role : Role)
| DeleteButton (roleId : string).

(** The guard of the delete button:
    [role.code !== "super_admin" && role.code !== "SUPER_ADMIN"]. *)
Definition deleteGuard (role : Role) : bool :=
  negb (JS.strict_eq (role_code role) "super_admin")
  && negb (JS.strict_eq (role_code role) "SUPER_ADMIN").

Definition isDeleteButton (c : Control) : bool :=
  match c with DeleteButton _ => true | EditButton _ => false end.

(** The actions footer of the card of [role]. *)
Definition cardControls (role : Role) : list Control :=
  EditButton role :: (if deleteGuard role then [DeleteButton (role_id role)] else []).


(** ** The events of the screen and its step function *)

Inductive Event :=
| Mount (res : Outcome (list Role))
| ClickCreate
| ClickEdit (role : Role)
| ClickDelete (roleId : string) (confirmed : bool) (res : Outcome unit)
| TypeName (value : string)
| TypeCode (value : string)
| ClickCheckbox (module : string) (action : Action)
| Submit (res : Outcome unit) (refetch : Outcome (list Role))
| CloseModal.

(** The events the rendered screen can deliver: a card's buttons exist for
    the roles of the list, the delete button only under its guard, a
    checkbox per member of [MODULES], and a disabled input delivers no
    change event. *)
Definition deliverable (st : State) (ev : Event) : Prop :=
  match ev with
  | ClickEdit role => In role (roles st)
  | ClickDelete roleId _ _ =>
      exists role, In role (roles st) /\ In (DeleteButton roleId) (cardControls role)
  | TypeCode _ => codeInputDisabled st = false
  | ClickCheckbox module _ => In module MODULES
  | _ => True
  end.

(** One event; [None] when its handler throws. *)
Definition step (st : State) (ev : Event) : option (State * list Eff) :=
  match ev with
  | Mount res => Some (fetchData res st)
  | ClickCreate => Some (openCreateModal st, [])
  | ClickEdit role => Some (openEditModal role st, [])
  | ClickDelete roleId confirmed res => Some (handleDelete roleId confirmed res st)
  | TypeName value => Some (onNameChange value st, [])
  | TypeCode value => Some (onCodeChange value st, [])
  | ClickCheckbox module action =>
      match togglePermission module action (formData st) with
      | Some fd => Some (setFormData fd st, [])
      | None => None
      end
  | Submit res refetch => Some (handleSubmit res refetch st)
  | CloseModal => Some (setIsModalOpen false st, [])
  end.

(** The states the screen can be in. *)
Inductive reachable : State -> Prop :=
| reachable_init : reachable init
| reachable_step st ev st' effs :
    reachable st -> deliverable st ev -> step st ev = Some (st', effs) ->
    reachable st'.

(** The draft covers every known module. *)
Definition coversModules (fd : FormData) : Prop :=
  forall module, In module MODULES -> is_Some (permissions fd !! module).


(** ** The access highlights of a role card *)

(** [Object.entries(role.permissions)]: the entries of the dictionary.  The
    order in which an object enumerates its keys is not modelled; what is
    stated about this list does not depend on it. *)
Definition permissionEntries (role : Role) : list (string * PermissionSet) :=
  map_to_list (role_permissions role).

(** The four status dots of one entry: the colour class of each. *)
Definition statusDots (val : PermissionSet) : list string :=
  [ if view val then "bg-green-500" else "bg-gray-200";
    if create val then "bg-blue-500" else "bg-gray-200";
    if edit val then "bg-yellow-500" else "bg-gray-200";
    if delete val then "bg-red-500" else "bg-gray-200" ].

(** [Object.entries(role.permissions).slice(0, 3).map(...)]. *)
Definition accessHighlights (role : Role) : list (string * list string) :=
  map (fun '(key, val) => (key, statusDots val)) (firstn 3 (permissionEntries role)).

(** [Object.keys(role.permissions).length > 3 && <p>+ {length - 3} more
    modules</p>]: the number in the line, [None] when the line is absent. *)
Definition moreModules (role : Role) : option nat :=
  let n := length (permissionEntries role) in
  if (3 <? n)%nat then Some (n - 3) else None.

End RolesPage.


(** * The user screen *)

Module UsersPage.
Import Auth.

(** The draft held in [formData]. *)
Record FormData := {
  name : string;
  email : string;
  password : string;
  roleId : string;
}.

(** The request body of create and update: [password] is an own property
    only when it was assigned. *)
Record Payload := {
  payload_name : string;
  payload_email : string;
  payload_roleId : string;
  payload_password : option string;
}.

Record State := {
  users : list User;
  roles : list Role;
  isLoading : bool;
  error : string;
  isModalOpen : bool;
  isSubmitting : bool;
  editingUser : option User;
  formData : FormData;
}.

Definition init : State :=
  {| users := []; roles := []; isLoading := true; error := "";
     isModalOpen := false; isSubmitting := false; editingUser := None;
     formData := {| name := ""; email := ""; password := ""; roleId := "" |} |}.

Definition setUsers (l : list User) (st : State) : State :=
  {| users := l; roles := roles st; isLoading := isLoading st; error := error st;
     isModalOpen := isModalOpen st; isSubmitting := isSubmitting st;
     editingUser := editingUser st; formData := formData st |}.

Definition setRoles (l : list Role) (st : State) : State :=
  {| users := users st; roles := l; isLoading := isLoading st; error := error st;
     isModalOpen := isModalOpen st; isSubmitting := isSubmitting st;
     editingUser := editingUser st; formData := formData st |}.

Definition setIsLoading (b : bool) (st : State) : State :=
  {| users := users st; roles := roles st; isLoading := b; error := error st;
     isModalOpen := isModalOpen st; isSubmitting := isSubmitting st;
     editingUser := editingUser st; formData := formData st |}.

Definition setError (e : string) (st : State) : State :=
  {| users := users st; roles := roles st; isLoading := isLoading st; error := e;
     isModalOpen := isModalOpen st; isSubmitting := isSubmitting st;
     editingUser := editingUser st; formData := formData st |}.

Definition setIsModalOpen (b : bool) (st : State) : State :=
  {| users := users st; roles := roles st; isLoading := isLoading st;
     error := error st; isModalOpen := b; isSubmitting := isSubmitting st;
     editingUser := editingUser st; formData := formData st |}.

Definition setIsSubmitting (b : bool) (st : State) : State :=
  {| users := users st; roles := roles st; isLoading := isLoading st;
     error := error st; isModalOpen := isModalOpen st; isSubmitting := b;
     editingUser := editingUser st; formData := formData st |}.

Definition setEditingUser (u : option User) (st : State) : State :=
  {| users := users st; roles := roles st; isLoading := isLoading st;
     error := error st; isModalOpen := isModalOpen st;
     isSubmitting := isSubmitting st; editingUser := u; formData := formData st |}.

Definition setFormData (fd : FormData) (st : State) : State :=
  {| users := users st; roles := roles st; isLoading := isLoading st;
     error := error st; isModalOpen := isModalOpen st;
     isSubmitting := isSubmitting st; editingUser := editingUser st;
     formData := fd |}.

Abbreviation Eff := (Effect Payload).

(** The two shapes of the body of [GET /users]. *)
Inductive UsersBody :=
| Wrapped (users : list User)
| Bare (users : list User).

(** [usersRes.data.users || usersRes.data]; an array is truthy, also when
    empty. *)
Definition usersOf (data : UsersBody) : list User :=
  match data with
  | Wrapped l => l
  | Bare l => l
  end.

Definition loadError : string := "Failed to load data. Please check permissions.".

(** [fetchData]: [Promise.all] of the two requests resolves when both do and
    rejects as soon as one does. *)
Definition fetchData (usersRes : Outcome UsersBody) (rolesRes : Outcome (list Role))
  (st : State) : State * list Eff :=
  match usersRes, rolesRes with
  | Resolved u, Resolved r =>
      (setIsLoading false (setRoles r (setUsers (usersOf u) (setIsLoading true st))),
       [ApiGet "/users"; ApiGet "/roles"])
  | _, _ =>
      (setIsLoading false (setError loadError (setIsLoading true st)),
       [ApiGet "/users"; ApiGet "/roles"; ToastError "Could not load users."])
  end.

Definition openCreateModal (st : State) : State :=
  setIsModalOpen true
    (setFormData {| name := ""; email := ""; password := ""; roleId := "" |}
       (setEditingUser None st)).

(** [user.role?._id || ""]. *)
Definition roleIdOf (user : User) : string :=
  JS.or_else (option_map role_id (user_role user)) "".

Definition openEditModal (user : User) (st : State) : State :=
  setIsModalOpen true
    (setFormData {| name := user_name user; email := user_email user;
                    password := ""; roleId := roleIdOf user |}
       (setEditingUser (Some user) st)).

(** The payload of [handleSubmit]: [password] is assigned only when the
    draft's password is truthy. *)
Definition buildPayload (fd : FormData) : Payload :=
  {| payload_name := name fd; payload_email := email fd; payload_roleId := roleId fd;
     payload_password := if JS.truthy (password fd) then Some (password fd) else None |}.

(** [roles.find((r) => r._id === payload.roleId)]. *)
Definition findRole (l : list Role) (id : string) : option Role :=
  List.find (fun r => JS.strict_eq (role_id r) id) l.

(** [handleSubmit]: [res] answers the [PUT] or [POST] with [data.user]. *)
Definition handleSubmit (res : Outcome User) (st : State) : State * list Eff :=
  let payload := buildPayload (formData st) in
  match editingUser st with
  | Some editing =>
      let call := ApiPut ("/users/" +:+ user_id editing) payload in
      match res with
      | Resolved savedUser =>
          let roleObj := findRole (roles st) (payload_roleId payload) in
          let updatedUserWithRole := withRole savedUser roleObj in
          (setIsSubmitting false
             (setIsModalOpen false
                (setUsers
                   (map (fun u =>
                           if JS.strict_eq (user_id u) (user_id editing)
                           then updatedUserWithRole else u) (users st))
                   (setIsSubmitting true st))),
           [call; ToastSuccess "User updated successfully!"])
      | Rejected e =>
          (setIsSubmitting false (setIsSubmitting true st),
           [call; ToastError (JS.or_else (response_message e) "Operation failed")])
      end
  | None =>
      let call := ApiPost "/users" payload in
      match res with
      | Resolved savedUser =>
          let roleObj := findRole (roles st) (payload_roleId payload) in
          let newUserWithRole := withRole savedUser roleObj in
          (setIsSubmitting false
             (setIsModalOpen false
                (setUsers (users st ++ [newUserWithRole])%list
                   (setIsSubmitting true st))),
           [call; ToastSuccess "User created successfully!"])
      | Rejected e =>
          (setIsSubmitting false (setIsSubmitting true st),
           [call; ToastError (JS.or_else (response_message e) "Operation failed")])
      end
  end.

Definition confirmDelete : string := "Are you sure you want to delete this user?".

(** [handleDelete]: [confirmed] is the answer of [window.confirm]. *)
Definition handleDelete (userId : string) (confirmed : bool) (res : Outcome unit)
  (st : State) : State * list Eff :=
  if negb confirmed then (st, [Confirm confirmDelete])
  else
    match res with
    | Resolved _ =>
        (setUsers (List.filter (fun u => negb (JS.strict_eq (user_id u) userId)) (users st)) st,
         [Confirm confirmDelete; ApiDelete ("/users/" +:+ userId);
          ToastSuccess "User deleted successfully"])
    | Rejected _ =>
        (st,
         [Confirm confirmDelete; ApiDelete ("/users/" +:+ userId);
          ToastError "Failed to delete user"])
    end.

(** ** Render *)

(** [{error && <div>...{error}...</div>}]: the banner and its text. *)
Definition banner (st : State) : option string :=
  if JS.truthy (error st) then Some (error st) else None.

(** [user.role?.name || "No Role"]. *)
Definition roleLabel (user : User) : string :=
  JS.or_else (option_map role_name (user_role user)) "No Role".

(** The rows of the roster: one per user, in order, with the role label. *)
Definition renderRows (st : State) : list (User * string) :=
  if isLoading st then [] else map (fun u => (u, roleLabel u)) (users st).

(** ** The inputs of the form *)

Definition onNameChange (value : string) (st : State) : State :=
  setFormData {| name := value; email := email (formData st);
                 password := password (formData st); roleId := roleId (formData st) |} st.

Definition onEmailChange (value : string) (st : State) : State :=
  setFormData {| name := name (formData st); email := value;
                 password := password (formData st); roleId := roleId (formData st) |} st.

Definition onPasswordChange (value : string) (st : State) : State :=
  setFormData {| name := name (formData st); email := email (formData st);
                 password := value; roleId := roleId (formData st) |} st.

Definition onRoleChange (value : string) (st : State) : State :=
  setFormData {| name := name (formData st); email := email (formData st);
                 password := password (formData st); roleId := value |} st.

(** The options of the role select, value and label: the placeholder and one
    option per loaded role. *)
Definition roleOptions (st : State) : list (string * string) :=
  ("", "Select a Role") :: map (fun role => (role_id role, role_name role)) (roles st).

(** ** The events of the screen and its step function *)

Inductive Event :=
| Mount (usersRes : Outcome UsersBody) (rolesRes : Outcome (list Role))
| ClickAdd
| ClickEdit (user : User)
| ClickDelete (userId : string) (confirmed : bool) (res : Outcome unit)
| TypeName (value : string)
| TypeEmail (value : string)
| TypePassword (value : string)
| SelectRole (value : string)
| Submit (res : Outcome User)
| CloseModal.

(** The events the rendered screen can deliver: the buttons of a row exist
    for the users of the list, and the select offers the values of its
    options. *)
Definition deliverable (st : State) (ev : Event) : Prop :=
  match ev with
  | ClickEdit user => In user (users st)
  | ClickDelete userId _ _ => In userId (map user_id (users st))
  | SelectRole value => In value (map fst (roleOptions st))
  | _ => True
  end.

(** One event; no handler of this screen throws. *)
Definition step (st : State) (ev : Event) : State * list Eff :=
  match ev with
  | Mount usersRes rolesRes => fetchData usersRes rolesRes st
  | ClickAdd => (openCreateModal st, [])
  | ClickEdit user => (openEditModal user st, [])
  | ClickDelete userId confirmed res => handleDelete userId confirmed res st
  | TypeName value => (onNameChange value st, [])
  | TypeEmail value => (onEmailChange value st, [])
  | TypePassword value => (onPasswordChange value st, [])
  | SelectRole value => (onRoleChange value st, [])
  | Submit res => handleSubmit res st
  | CloseModal => (setIsModalOpen false st, [])
  end.

(** The states the screen can be in. *)
Inductive reachable : State -> Prop :=
| reachable_init : reachable init
| reachable_step st ev :
    reachable st -> deliverable st ev -> reachable (fst (step st ev)).

End UsersPage.


(** * Facts about the string operations *)

Module JSFacts.
Import JS.

Lemma truthy_nonempty (s : string) : truthy s = true <-> s <> "".
Proof.
  unfold truthy. destruct (String.eqb_spec s ""); simpl; split; congruence.
Qed.

Lemma strict_eq_true (a b : string) : strict_eq a b = true <-> a = b.
Proof. apply String.eqb_eq. Qed.

Lemma strict_eq_false (a b : string) : strict_eq a b = false <-> a <> b.
Proof. apply String.eqb_neq. Qed.

Lemma strict_eq_refl (a : string) : strict_eq a a = true.
Proof. apply String.eqb_refl. Qed.

Lemma or_else_spec (v : option string) (d : string) :
  (forall m, v = Some m -> m <> "" -> or_else v d = m)
  /\ (v = None \/ v = Some "" -> or_else v d = d).
Proof.
  split.
  - intros m -> Hm. simpl. apply truthy_nonempty in Hm. now rewrite Hm.
  - intros [-> | ->]; reflexivity.
Qed.

(** Case analysis over the 256 code units. *)
Ltac by_cases_on_unit c :=
  destruct c as [[] [] [] [] [] [] [] []]; vm_compute; try reflexivity; try congruence.

Lemma toUpperCaseUnit_whitespace (c : ascii) :
  isWhiteSpace (toUpperCaseUnit c) = isWhiteSpace c.
Proof. by_cases_on_unit c. Qed.

Lemma toUpperCaseUnit_not_lower (c : ascii) :
  isLowerCaseLetter (toUpperCaseUnit c) = false.
Proof. by_cases_on_unit c. Qed.

Lemma toUpperCaseUnit_idem (c : ascii) :
  toUpperCaseUnit (toUpperCaseUnit c) = toUpperCaseUnit c.
Proof. by_cases_on_unit c. Qed.

Lemma underscore_plain :
  isWhiteSpace "_" = false /\ isLowerCaseLetter "_" = false
  /\ toUpperCaseUnit "_" = "_"%char.
Proof. vm_compute. auto. Qed.

Lemma app_nil (t : string) : "" +:+ t = t.
Proof. reflexivity. Qed.

Lemma app_cons (c : ascii) (s t : string) : String c s +:+ t = String c (s +:+ t).
Proof. reflexivity. Qed.

Lemma toUpperCase_app (s t : string) :
  toUpperCase (s +:+ t) = toUpperCase s +:+ toUpperCase t.
Proof.
  induction s as [|c s IH]; [reflexivity|].
  rewrite !app_cons. simpl. rewrite IH. now rewrite app_cons.
Qed.

Lemma units_toUpperCase (s : string) :
  units (toUpperCase s) = map toUpperCaseUnit (units s).
Proof. induction s as [|c s IH]; simpl; [reflexivity | now rewrite IH]. Qed.

(** The pass that is already inside a run continues as the scan does once
    the rest of the run is skipped. *)
Lemma spec_collapseRuns_in_run (s : string) :
  spec_collapseRuns true s = spec_collapseRuns false (skipWhiteSpace s).
Proof.
  induction s as [|c s IH]; simpl; [reflexivity|].
  destruct (isWhiteSpace c) eqn:Hc; [exact IH|].
  simpl. now rewrite Hc.
Qed.

(** The scan of the regular expression and the one-pass reading of the
    specification give the same string. *)
Lemma replaceWhiteSpaceRuns_spec (s : string) :
  replaceWhiteSpaceRuns s = spec_collapseRuns false s.
Proof.
  funelim (replaceWhiteSpaceRuns s); simpl.
  - reflexivity.
  - rewrite Heq. f_equal.
    rewrite spec_collapseRuns_in_run. assumption.
  - rewrite Heq. f_equal. assumption.
Qed.

Lemma spec_collapseRuns_units (b : bool) (s : string) (c : ascii) :
  In c (units (spec_collapseRuns b s)) ->
  c = "_"%char \/ (In c (units s) /\ isWhiteSpace c = false).
Proof.
  revert b. induction s as [|d s IH]; intros b; simpl; [tauto|].
  destruct (isWhiteSpace d) eqn:Hd.
  - destruct b; simpl; intros H.
    + destruct (IH _ H) as [?|[? ?]]; tauto.
    + destruct H as [<-|H]; [now left|].
      destruct (IH _ H) as [?|[? ?]]; tauto.
  - simpl. intros [<-|H]; [now right; split; [left|]|].
    destruct (IH _ H) as [?|[? ?]]; tauto.
Qed.

(** Every code unit of the result is an underscore or a code unit of the
    input that is not whitespace. *)
Lemma replaceWhiteSpaceRuns_units (s : string) (c : ascii) :
  In c (units (replaceWhiteSpaceRuns s)) ->
  c = "_"%char \/ (In c (units s) /\ isWhiteSpace c = false).
Proof. rewrite replaceWhiteSpaceRuns_spec. apply spec_collapseRuns_units. Qed.

Lemma replaceWhiteSpaceRuns_no_whitespace (s : string) :
  Forall (fun c => isWhiteSpace c = false) (units (replaceWhiteSpaceRuns s)).
Proof.
  apply List.Forall_forall. intros c Hc.
  destruct (replaceWhiteSpaceRuns_units _ _ Hc) as [-> | [_ H]]; [reflexivity | exact H].
Qed.

Lemma skipWhiteSpace_run (w rest : string) :
  allWhiteSpace w -> startsWithWhiteSpace rest = false ->
  skipWhiteSpace (w +:+ rest) = rest.
Proof.
  intros Hw Hr. induction w as [|c w IH].
  - rewrite app_nil. destruct rest as [|d rest]; simpl in *; [reflexivity | now rewrite Hr].
  - inversion Hw as [|? ? Hc Hw']; subst. rewrite app_cons. simpl.
    rewrite Hc. now apply IH.
Qed.

Lemma replaceWhiteSpaceRuns_text (t rest : string) :
  noWhiteSpace t ->
  replaceWhiteSpaceRuns (t +:+ rest) = t +:+ replaceWhiteSpaceRuns rest.
Proof.
  intros Ht. induction t as [|c t IH]; [reflexivity|].
  inversion Ht as [|? ? Hc Ht']; subst.
  rewrite !app_cons. simp replaceWhiteSpaceRuns. rewrite Hc. simpl. now rewrite IH.
Qed.

Lemma replaceWhiteSpaceRuns_run (w rest : string) :
  allWhiteSpace w -> w <> "" -> startsWithWhiteSpace rest = false ->
  replaceWhiteSpaceRuns (w +:+ rest) = String "_" (replaceWhiteSpaceRuns rest).
Proof.
  intros Hw Hne Hr. destruct w as [|c w]; [congruence|].
  inversion Hw as [|? ? Hc Hw']; subst. rewrite app_cons.
  simp replaceWhiteSpaceRuns. rewrite Hc. simpl.
  now rewrite skipWhiteSpace_run.
Qed.

Lemma toUpperCase_noWhiteSpace (s : string) :
  noWhiteSpace s -> noWhiteSpace (toUpperCase s).
Proof.
  unfold noWhiteSpace. rewrite units_toUpperCase, List.Forall_map.
  apply List.Forall_impl. intros c. now rewrite toUpperCaseUnit_whitespace.
Qed.

Lemma toUpperCase_allWhiteSpace (s : string) :
  allWhiteSpace s -> allWhiteSpace (toUpperCase s).
Proof.
  unfold allWhiteSpace. rewrite units_toUpperCase, List.Forall_map.
  apply List.Forall_impl. intros c. now rewrite toUpperCaseUnit_whitespace.
Qed.

Lemma toUpperCase_startsWithWhiteSpace (s : string) :
  startsWithWhiteSpace (toUpperCase s) = startsWithWhiteSpace s.
Proof. destruct s; simpl; [reflexivity | apply toUpperCaseUnit_whitespace]. Qed.

Lemma toUpperCase_nonempty (s : string) : s <> "" -> toUpperCase s <> "".
Proof. destruct s; simpl; congruence. Qed.

End JSFacts.


(** * Properties of the role screen *)

Module RolesPageSpec.
Import Auth RolesPage.

(** ** Dictionaries *)

Lemma lookup_spread {V} (a b : gmap string V) (k : string) :
  spread a b !! k = match b !! k with Some v => Some v | None => a !! k end.
Proof.
  unfold spread. rewrite lookup_union.
  destruct (b !! k), (a !! k); reflexivity.
Qed.

Lemma lookup_generateDefaultPermissions (module : string) :
  generateDefaultPermissions !! module =
  if bool_decide (In module MODULES) then Some emptyPermissionSet else None.
Proof.
  unfold generateDefaultPermissions, MODULES. simpl.
  rewrite !lookup_insert, lookup_empty.
  repeat case_decide; subst; case_bool_decide as Hin; simpl in Hin;
    try reflexivity; exfalso; intuition congruence.
Qed.

Lemma lookup_default_module (module : string) :
  In module MODULES -> generateDefaultPermissions !! module = Some emptyPermissionSet.
Proof.
  intros H. rewrite lookup_generateDefaultPermissions. now rewrite bool_decide_eq_true_2.
Qed.

Lemma coversModules_default : forall module,
  In module MODULES -> is_Some (generateDefaultPermissions !! module).
Proof. intros module H. rewrite lookup_default_module; eauto. Qed.

Lemma lookup_mergedPermissions (role : Role) (module : string) :
  mergedPermissions role !! module =
  match role_permissions role !! module with
  | Some ps => Some ps
  | None => generateDefaultPermissions !! module
  end.
Proof. apply lookup_spread. Qed.

(** ** Flags of a permission set *)

Lemma getFlag_setFlag_eq (ps : PermissionSet) (a : Action) (b : bool) :
  getFlag (setFlag ps a b) a = b.
Proof. destruct a; reflexivity. Qed.


(** ** The draft covers the modules *)

Lemma coversModules_init : coversModules (formData init).
Proof. exact coversModules_default. Qed.

Lemma coversModules_openCreateModal (st : State) :
  coversModules (formData (openCreateModal st)).
Proof. exact coversModules_default. Qed.

Lemma coversModules_openEditModal (role : Role) (st : State) :
  coversModules (formData (openEditModal role st)).
Proof.
  intros module H. simpl. rewrite lookup_mergedPermissions.
  destruct (role_permissions role !! module); [eauto|].
  now apply coversModules_default.
Qed.

Lemma togglePermission_defined (fd : FormData) (module : string) (action : Action) :
  is_Some (permissions fd !! module) -> is_Some (togglePermission module action fd).
Proof. intros [ps H]. unfold togglePermission. rewrite H. eauto. Qed.

Lemma togglePermission_lookup (fd fd' : FormData) (module : string) (action : Action)
  (module' : string) :
  togglePermission module action fd = Some fd' ->
  is_Some (permissions fd' !! module') <-> is_Some (permissions fd !! module').
Proof.
  unfold togglePermission. destruct (permissions fd !! module) as [ps|] eqn:E; [|discriminate].
  intros [= <-]. simpl. rewrite lookup_insert. case_decide; subst; [|reflexivity].
  rewrite E. split; eauto.
Qed.

Lemma coversModules_togglePermission (fd fd' : FormData) (module : string)
  (action : Action) :
  coversModules fd -> togglePermission module action fd = Some fd' -> coversModules fd'.
Proof.
  intros Hc Ht module' Hin. rewrite (togglePermission_lookup _ _ _ _ _ Ht). now apply Hc.
Qed.

Lemma togglePermission_code (fd fd' : FormData) (module : string) (action : Action) :
  togglePermission module action fd = Some fd' ->
  name fd' = name fd /\ code fd' = code fd.
Proof.
  unfold togglePermission. destruct (permissions fd !! module); [|discriminate].
  intros [= <-]. auto.
Qed.

(** ** What the handlers leave alone *)

Lemma fetchData_form (res : Outcome (list Role)) (st : State) :
  formData (fst (fetchData res st)) = formData st
  /\ editingRole (fst (fetchData res st)) = editingRole st.
Proof. destruct res; auto. Qed.

Lemma handleSubmit_form (res : Outcome unit) (refetch : Outcome (list Role))
  (st : State) :
  formData (fst (handleSubmit res refetch st)) = formData st
  /\ editingRole (fst (handleSubmit res refetch st)) = editingRole st.
Proof. destruct res, refetch; auto. Qed.

Lemma handleDelete_form (roleId : string) (confirmed : bool) (res : Outcome unit)
  (st : State) :
  formData (fst (handleDelete roleId confirmed res st)) = formData st
  /\ editingRole (fst (handleDelete roleId confirmed res st)) = editingRole st.
Proof. destruct confirmed, res; auto. Qed.

(** The state a successful step leads to. *)
Ltac next_state Hs :=
  first
    [ injection Hs as <- _
    | injection Hs as Hs; apply (f_equal fst) in Hs; cbn [fst] in Hs; subst ].

(** Every reachable draft covers the modules. *)
Lemma reachable_coversModules (st : State) :
  reachable st -> coversModules (formData st).
Proof.
  induction 1 as [|st ev st' effs Hr IH Hd Hs]; [exact coversModules_init|].
  destruct ev; simpl in Hs.
  - next_state Hs. now rewrite (proj1 (fetchData_form _ _)).
  - next_state Hs. apply coversModules_openCreateModal.
  - next_state Hs. apply coversModules_openEditModal.
  - next_state Hs. now rewrite (proj1 (handleDelete_form _ _ _ _)).
  - next_state Hs. exact IH.
  - next_state Hs. exact IH.
  - destruct (togglePermission module action (formData st)) as [fd|] eqn:E; [|discriminate].
    next_state Hs. simpl. eapply coversModules_togglePermission; eauto.
  - next_state Hs. now rewrite (proj1 (handleSubmit_form _ _ _)).
  - next_state Hs. exact IH.
Qed.

(** While a role is being edited the draft carries that role's code. *)
Lemma reachable_code_frozen (st : State) :
  reachable st ->
  forall role, editingRole st = Some role -> code (formData st) = role_code role.
Proof.
  induction 1 as [|st ev st' effs Hr IH Hd Hs]; [discriminate|].
  intros role. destruct ev; simpl in Hs.
  - next_state Hs. destruct (fetchData_form res st) as [-> ->]. apply IH.
  - next_state Hs. discriminate.
  - next_state Hs. simpl. now intros [= <-].
  - next_state Hs.
    destruct (handleDelete_form roleId confirmed res st) as [-> ->]. apply IH.
  - next_state Hs. simpl. apply IH.
  - next_state Hs. simpl. simpl in Hd. unfold codeInputDisabled in Hd.
    destruct (editingRole st); discriminate.
  - destruct (togglePermission module action (formData st)) as [fd|] eqn:E; [|discriminate].
    next_state Hs. simpl. rewrite (proj2 (togglePermission_code _ _ _ _ E)).
    apply IH.
  - next_state Hs.
    destruct (handleSubmit_form res refetch st) as [-> ->]. apply IH.
  - next_state Hs. simpl. apply IH.
Qed.

(** ** The delete control of a role card *)

Lemma deleteGuard_false (role : Role) :
  deleteGuard role = false <->
  role_code role = "super_admin" \/ role_code role = "SUPER_ADMIN".
Proof.
  unfold deleteGuard.
  rewrite andb_false_iff, !negb_false_iff, !JSFacts.strict_eq_true. reflexivity.
Qed.

Lemma cardControls_delete (role : Role) (c : Control) :
  In c (cardControls role) -> isDeleteButton c = true ->
  deleteGuard role = true /\ c = DeleteButton (role_id role).
Proof.
  unfold cardControls. destruct (deleteGuard role); simpl.
  - intros [<-|[<-|[]]]; [discriminate | auto].
  - intros [<-|[]]; discriminate.
Qed.


Lemma NoDup_map_In_inj {A B} (f : A -> B) (l : list A) (a b : A) :
  List.NoDup (map f l) -> In a l -> In b l -> f a = f b -> a = b.
Proof.
  induction l as [|x l IH]; simpl; [tauto|].
  intros Hnd Ha Hb Hf. inversion Hnd as [|? ? Hx Hl]; subst.
  destruct Ha as [->|Ha], Hb as [->|Hb]; auto.
  - exfalso. apply Hx. rewrite Hf. now apply in_map.
  - exfalso. apply Hx. rewrite <- Hf. now apply in_map.
Qed.




(** ** Opening the editor *)

(** C2: for every stored role, the draft that [openEditModal] sets has an
    entry for every known module; a module the stored role lacks gets the
    all-false permission set, an entry of the stored role is kept as it is.
    The merge is a total function: it has no failing case. *)
Theorem openEditModal_covers_every_module (role : Role) (st : State) :
  let draft := permissions (formData (openEditModal role st)) in
  (forall module, In module MODULES -> is_Some (draft !! module))
  /\ (forall module, In module MODULES -> role_permissions role !! module = None ->
        draft !! module =
        Some {| view := false; create := false; edit := false; delete := false |})
  /\ (forall module ps, role_permissions role !! module = Some ps ->
        draft !! module = Some ps).
Proof.
  simpl. split; [|split].
  - apply (coversModules_openEditModal role st).
  - intros module Hin Hnone. rewrite lookup_mergedPermissions, Hnone.
    now apply lookup_default_module.
  - intros module ps Hsome. now rewrite lookup_mergedPermissions, Hsome.
Qed.

Lemma openEditModal_covers_every_module_witness :
  let role := {| role_id := "r2"; role_name := "Field Staff"; role_code := "FIELD_STAFF";
                 role_permissions :=
                   {[ "recce" := {| view := true; create := true; edit := false;
                                    delete := false |} ]} |} in
  let draft := permissions (formData (openEditModal role init)) in
  draft !! "installation" =
    Some {| view := false; create := false; edit := false; delete := false |}
  /\ draft !! "recce" =
    Some {| view := true; create := true; edit := false; delete := false |}.
Proof.
  intros role draft.
  destruct (openEditModal_covers_every_module role init) as (_ & Hdef & Hkeep).
  split.
  - apply Hdef; [simpl; tauto | reflexivity].
  - apply Hkeep. reflexivity.
Defined.

(** ** Toggling a permission *)



(** ** The invariant of the draft *)

Lemma checked_covered (fd : FormData) (module : string) (action : Action) :
  is_Some (permissions fd !! module) ->
  exists b, permissionCell fd module action = Some b /\ checked fd module action = b.
Proof.
  intros [ps H]. unfold checked, permissionCell. rewrite H.
  eexists. split; [reflexivity | apply orb_false_r].
Qed.

Lemma step_defined (st : State) (ev : Event) :
  coversModules (formData st) -> deliverable st ev -> is_Some (step st ev).
Proof.
  intros Hc Hd. destruct ev; simpl; eauto.
  destruct (togglePermission_defined (formData st) module action (Hc _ Hd)) as [fd ->].
  eauto.
Qed.

(** C10: the initial draft, the draft of [openCreateModal], the draft of
    [openEditModal] and the draft after [togglePermission] all have an entry
    for every module of MODULES, which is the list user, role, recce,
    installation; on such a draft a toggle of a listed module does not throw,
    the read behind a checkbox is defined and the [|| false] fallback returns
    the stored boolean; every state the screen reaches has such a draft and
    none of its events throws. *)
Theorem draft_covers_modules_invariant :
  MODULES = ["user"; "role"; "recce"; "installation"]
  /\ coversModules (formData init)
  /\ (forall st, coversModules (formData (openCreateModal st)))
  /\ (forall role st, coversModules (formData (openEditModal role st)))
  /\ (forall fd module action, coversModules fd -> In module MODULES ->
        exists fd', togglePermission module action fd = Some fd' /\ coversModules fd')
  /\ (forall fd module action, coversModules fd -> In module MODULES ->
        exists b, permissionCell fd module action = Some b
                  /\ checked fd module action = b)
  /\ (forall st, reachable st ->
        coversModules (formData st)
        /\ forall ev, deliverable st ev -> is_Some (step st ev)).
Proof.
  split; [reflexivity|].
  split; [exact coversModules_init|].
  split; [exact coversModules_openCreateModal|].
  split; [exact coversModules_openEditModal|].
  split; [|split].
  - intros fd module action Hc Hin.
    destruct (togglePermission_defined fd module action (Hc _ Hin)) as [fd' Ht].
    exists fd'. split; [exact Ht|]. eapply coversModules_togglePermission; eauto.
  - intros fd module action Hc Hin. apply checked_covered. now apply Hc.
  - intros st Hr. pose proof (reachable_coversModules st Hr) as Hc.
    split; [exact Hc|]. intros ev. now apply step_defined.
Qed.

Lemma draft_covers_modules_invariant_witness :
  let role := {| role_id := "r3"; role_name := "Legacy"; role_code := "LEGACY";
                 role_permissions := {[ "user" := emptyPermissionSet ]} |} in
  let fd := formData (openEditModal role init) in
  (exists fd', togglePermission "installation" Adelete fd = Some fd'
               /\ coversModules fd')
  /\ (exists b, permissionCell fd "recce" Aview = Some b
                /\ checked fd "recce" Aview = b).
Proof.
  intros role fd.
  destruct draft_covers_modules_invariant as (_ & _ & _ & Hedit & Htoggle & Hcell & _).
  split.
  - apply Htoggle; [apply Hedit | simpl; tauto].
  - apply Hcell; [apply Hedit | simpl; tauto].
Defined.

(** ** The role-code input *)

(** C8: the value the code input stores is the entered value in upper case
    with every run of whitespace replaced by one underscore: it is what the
    one-pass reading of the specification gives, it has no whitespace and no
    lower-case letter, and a run between two texts leaves exactly one
    underscore between their upper-case forms; "field staff" is stored as
    "FIELD_STAFF", pasted at once or typed character by character; while a
    role is edited the input is disabled, no change of it is delivered, and
    the draft's code stays the code of that role. *)
Theorem role_code_input_transform :
  (forall v, JS.ascii_only v = true ->
     codeInputValue v = JS.spec_collapseRuns false (JS.toUpperCase v)
     /\ Forall (fun c => JS.isWhiteSpace c = false /\ JS.isLowerCaseLetter c = false)
          (JS.units (codeInputValue v)))
  /\ (forall t w rest, JS.ascii_only (t +:+ w +:+ rest) = true ->
        JS.noWhiteSpace t -> JS.allWhiteSpace w -> w <> "" ->
        JS.startsWithWhiteSpace rest = false ->
        codeInputValue (t +:+ w +:+ rest)
        = JS.toUpperCase t +:+ String "_" (codeInputValue rest))
  /\ (forall st, codeInputDisabled st = false ->
        code (formData (onCodeChange "field staff" st)) = "FIELD_STAFF"
        /\ code (formData (fold_left (fun s c => typeCharacter c s)
                             (JS.units "field staff") (openCreateModal st)))
           = "FIELD_STAFF")
  /\ (forall st role, reachable st -> editingRole st = Some role ->
        codeInputDisabled st = true
        /\ (forall v, ~ deliverable st (TypeCode v))
        /\ code (formData st) = role_code role).
Proof.
  split; [|split; [|split]].
  - intros v _. unfold codeInputValue. split.
    + apply JSFacts.replaceWhiteSpaceRuns_spec.
    + apply List.Forall_forall. intros c Hc.
      destruct (JSFacts.replaceWhiteSpaceRuns_units _ _ Hc) as [-> | [Hin Hws]].
      * split; reflexivity.
      * split; [exact Hws|].
        rewrite JSFacts.units_toUpperCase in Hin. apply in_map_iff in Hin.
        destruct Hin as (d & <- & _). apply JSFacts.toUpperCaseUnit_not_lower.
  - intros t w rest _ Ht Hw Hne Hr. unfold codeInputValue.
    rewrite !JSFacts.toUpperCase_app.
    rewrite JSFacts.replaceWhiteSpaceRuns_text
      by now apply JSFacts.toUpperCase_noWhiteSpace.
    rewrite JSFacts.replaceWhiteSpaceRuns_run; [reflexivity | | |].
    + now apply JSFacts.toUpperCase_allWhiteSpace.
    + now apply JSFacts.toUpperCase_nonempty.
    + now rewrite JSFacts.toUpperCase_startsWithWhiteSpace.
  - intros st _. split; reflexivity.
  - intros st role Hr He. split; [|split].
    + unfold codeInputDisabled. now rewrite He.
    + intros v Hd. simpl in Hd. unfold codeInputDisabled in Hd.
      rewrite He in Hd. discriminate.
    + now apply reachable_code_frozen.
Qed.

Lemma role_code_input_transform_witness :
  let role := {| role_id := "r4"; role_name := "Field Staff"; role_code := "FIELD_STAFF";
                 role_permissions := ∅ |} in
  let st := openEditModal role (fst (fetchData (Resolved [role]) init)) in
  JS.ascii_only "field  staff" = true
  /\ codeInputValue "field  staff"
     = JS.spec_collapseRuns false (JS.toUpperCase "field  staff")
  /\ codeInputValue "a  b" = "A_B"
  /\ code (formData (onCodeChange "field staff" (openCreateModal init))) = "FIELD_STAFF"
  /\ (forall v, ~ deliverable st (TypeCode v))
  /\ code (formData st) = "FIELD_STAFF".
Proof.
  intros role st.
  destruct role_code_input_transform as (Hval & Hrun & Hex & Hedit).
  split; [reflexivity|].
  split; [apply (Hval "field  staff"); reflexivity|].
  split; [|split].
  - apply (Hrun "a" "  " "b"); try reflexivity.
    + repeat constructor.
    + repeat constructor.
    + discriminate.
  - apply Hex. reflexivity.
  - assert (Hr : reachable st).
    { eapply (reachable_step _ (ClickEdit role)).
      - eapply (reachable_step init (Mount (Resolved [role])));
          [exact reachable_init | exact I | reflexivity].
      - simpl. now left.
      - reflexivity. }
    destruct (Hedit st role Hr eq_refl) as (_ & Hnd & Hcode).
    split; [exact Hnd | exact Hcode].
Defined.

End RolesPageSpec.

(** * Properties of the user screen *)

Module UsersPageSpec.
Import Auth UsersPage.

(** ** Lists keyed by identifier *)

Lemma filter_other_ids {A} (f : A -> string) (id : string) (l : list A) :
  ~ In id (map f l) ->
  List.filter (fun u => negb (JS.strict_eq (f u) id)) l = l.
Proof.
  induction l as [|a l IH]; simpl; [reflexivity|].
  intros Hn. destruct (JS.strict_eq (f a) id) eqn:E; simpl.
  - apply JSFacts.strict_eq_true in E. tauto.
  - f_equal. apply IH. tauto.
Qed.

(** In a list whose identifiers are distinct, dropping the entries of an
    identifier that occurs takes out one entry and leaves the others in
    place. *)
Lemma filter_removes_the_entry {A} (f : A -> string) (id : string) (l : list A) :
  List.NoDup (map f l) -> In id (map f l) ->
  exists before u after,
    l = (before ++ u :: after)%list /\ f u = id
    /\ List.filter (fun u => negb (JS.strict_eq (f u) id)) l = (before ++ after)%list
    /\ ~ In id (map f before) /\ ~ In id (map f after).
Proof.
  induction l as [|a l IH]; simpl; [tauto|].
  intros Hnd Hin. inversion Hnd as [|? ? Ha Hl]; subst.
  destruct (JS.strict_eq (f a) id) eqn:E; simpl.
  - apply JSFacts.strict_eq_true in E. subst id.
    exists [], a, l. simpl. repeat split; auto.
    now apply filter_other_ids.
  - apply JSFacts.strict_eq_false in E.
    destruct Hin as [Hin|Hin]; [congruence|].
    destruct (IH Hl Hin) as (before & u & after & -> & Hu & Hf & Hb & Haf).
    exists (a :: before), u, after. simpl. rewrite Hf.
    repeat split; auto. intros [?|?]; auto.
Qed.

Lemma filter_In_ids (id : string) (l : list User) (u : User) :
  In u (List.filter (fun u => negb (JS.strict_eq (user_id u) id)) l)
  <-> In u l /\ user_id u <> id.
Proof.
  rewrite filter_In, negb_true_iff, JSFacts.strict_eq_false. reflexivity.
Qed.

(** ** The role joined to a saved user *)

Lemma findRole_Some (l : list Role) (id : string) (r : Role) :
  findRole l id = Some r -> In r l /\ role_id r = id.
Proof.
  unfold findRole. intros H. apply find_some in H.
  now rewrite JSFacts.strict_eq_true in H.
Qed.

Lemma findRole_None (l : list Role) (id : string) :
  findRole l id = None <-> forall r, In r l -> role_id r <> id.
Proof.
  unfold findRole. split.
  - intros H r Hin. apply JSFacts.strict_eq_false. exact (find_none _ _ H r Hin).
  - intros H. destruct (find _ l) as [r|] eqn:E; [|reflexivity].
    apply find_some in E as [Hin Heq]. apply JSFacts.strict_eq_true in Heq.
    exfalso. exact (H r Hin Heq).
Qed.

Lemma roleLabel_no_role (u : User) : user_role u = None -> roleLabel u = "No Role".
Proof. unfold roleLabel. now intros ->. Qed.

(** ** The payload *)

Lemma buildPayload_password (fd : FormData) :
  (password fd = "" -> payload_password (buildPayload fd) = None)
  /\ (password fd <> "" -> payload_password (buildPayload fd) = Some (password fd)).
Proof.
  unfold buildPayload. simpl. split.
  - now intros ->.
  - intros H. apply JSFacts.truthy_nonempty in H. now rewrite H.
Qed.

(** C4: when an existing user is edited, the one request of the submission
    is the update of that user with the payload built from the draft; with an
    empty password in the draft the payload has the name, the email and the
    role identifier and no password field; with a password that is not empty
    the payload carries it. *)
Theorem update_payload_omits_blank_password (st : State) (editing : User)
  (res : Outcome User) (Hedit : editingUser st = Some editing) :
  let fd := formData st in
  let payload := buildPayload fd in
  (exists rest, snd (handleSubmit res st)
                = ApiPut ("/users/" +:+ user_id editing) payload :: rest
                /\ forallb (fun e => negb (isApiCall e)) rest = true)
  /\ payload_name payload = name fd
  /\ payload_email payload = email fd
  /\ payload_roleId payload = roleId fd
  /\ (password fd = "" -> payload_password payload = None)
  /\ (password fd <> "" -> payload_password payload = Some (password fd)).
Proof.
  intros fd payload. split.
  - unfold handleSubmit. rewrite Hedit. destruct res; simpl; eexists; split; reflexivity.
  - repeat split; try apply buildPayload_password.
Qed.

Lemma update_payload_omits_blank_password_witness :
  let ada := {| user_id := "u1"; user_name := "Ada"; user_email := "ada@x.com";
                user_role := None; user_isActive := true |} in
  let st := openEditModal ada init in
  payload_password (buildPayload (formData st)) = None
  /\ payload_password
       (buildPayload {| name := "Ada"; email := "ada@x.com"; password := "secret1";
                        roleId := "r1" |}) = Some "secret1".
Proof.
  intros ada st. split.
  - apply (update_payload_omits_blank_password st ada (Resolved ada) eq_refl).
    reflexivity.
  - apply (update_payload_omits_blank_password
             (setFormData {| name := "Ada"; email := "ada@x.com"; password := "secret1";
                             roleId := "r1" |} st) ada (Resolved ada) eq_refl).
    discriminate.
Defined.

(** C5: when the request of a submission is rejected, in create and in
    update mode, the user list, the open flag of the modal and the draft are
    what they were, the one notification is an error toast, with the message
    of the server when it has one that is not empty and with "Operation
    failed" otherwise, and no success toast is shown. *)
Theorem submit_failure_keeps_form_open (st : State) (e : ApiError) :
  let st' := fst (handleSubmit (Rejected e) st) in
  let effs := snd (handleSubmit (Rejected e) st) in
  users st' = users st
  /\ roles st' = roles st
  /\ isModalOpen st' = isModalOpen st
  /\ formData st' = formData st
  /\ editingUser st' = editingUser st
  /\ List.filter isToast effs
     = [ToastError (JS.or_else (response_message e) "Operation failed")]
  /\ (forall m, response_message e = Some m -> m <> "" ->
        List.filter isToast effs = [ToastError m])
  /\ (response_message e = None \/ response_message e = Some "" ->
        List.filter isToast effs = [ToastError "Operation failed"]).
Proof.
  intros st' effs. subst st' effs. unfold handleSubmit.
  destruct (editingUser st) eqn:E; simpl; rewrite ?E;
    (repeat split; try reflexivity;
     [ intros m Hm Hne; now rewrite (proj1 (JSFacts.or_else_spec _ _) m Hm Hne)
     | intros H; now rewrite (proj2 (JSFacts.or_else_spec _ _) H) ]).
Qed.

Lemma submit_failure_keeps_form_open_witness :
  let fd := {| name := "Ada"; email := "ada@x.com"; password := "secret1";
               roleId := "r1" |} in
  let st := setFormData fd (openCreateModal init) in
  let e := {| response_message := Some "Email already in use" |} in
  isModalOpen (fst (handleSubmit (Rejected e) st)) = true
  /\ formData (fst (handleSubmit (Rejected e) st)) = fd
  /\ List.filter isToast (snd (handleSubmit (Rejected e) st))
     = [ToastError "Email already in use"].
Proof.
  intros fd st e.
  destruct (submit_failure_keeps_form_open st e) as (_ & _ & Hopen & Hfd & _ & _ & Hmsg & _).
  split; [exact Hopen | split; [exact Hfd|]].
  apply Hmsg; [reflexivity | discriminate].
Defined.

(** ** Deleting a user *)

Lemma filter_sublist {A} (p : A -> bool) (l : list A) : List.filter p l `sublist_of` l.
Proof.
  induction l as [|a l IH]; simpl; [constructor|].
  destruct (p a); [now apply sublist_skip | now apply sublist_cons].
Qed.

(** The entries that go are as many as the identifier occurs. *)
Lemma filter_other_ids_length {A} (f : A -> string) (id : string) (l : list A) :
  length (List.filter (fun u => negb (JS.strict_eq (f u) id)) l)
  + count_occ String.string_dec (map f l) id
  = length l.
Proof.
  induction l as [|a l IH]; simpl; [reflexivity|].
  destruct (String.string_dec (f a) id) as [E|E].
  - apply JSFacts.strict_eq_true in E. rewrite E. simpl. lia.
  - apply JSFacts.strict_eq_false in E. rewrite E. simpl. lia.
Qed.

(** When the identifier occurs once, one entry goes and the others stay in
    place. *)
Lemma filter_removes_single {A} (f : A -> string) (id : string) (l : list A) :
  count_occ String.string_dec (map f l) id = 1 ->
  exists before u after,
    l = (before ++ u :: after)%list /\ f u = id
    /\ List.filter (fun u => negb (JS.strict_eq (f u) id)) l = (before ++ after)%list
    /\ ~ In id (map f (before ++ after)).
Proof.
  induction l as [|a l IH]; simpl; [discriminate|].
  destruct (String.string_dec (f a) id) as [E|E]; intros Hc.
  - assert (Hn : ~ In id (map f l)).
    { apply (count_occ_not_In String.string_dec). lia. }
    exists [], a, l. simpl. apply JSFacts.strict_eq_true in E as E'. rewrite E'. simpl.
    repeat split; auto. now apply filter_other_ids.
  - destruct (IH Hc) as (before & u & after & -> & Hu & Hf & Hn).
    exists (a :: before), u, after. apply JSFacts.strict_eq_false in E as E'.
    rewrite E'. simpl. rewrite Hf. repeat split; auto.
    intros [?|?]; [congruence | auto].
Qed.

(** C6, counterexample: the server answers a create with a record whose
    identifier the roster already holds, the roster then has two entries of
    that identifier, and the confirmed, successful delete that a click on
    either row starts removes both: two entries are gone, not exactly
    one. *)
Lemma delete_drops_every_entry_of_the_identifier :
  let ada := {| user_id := "u1"; user_name := "Ada"; user_email := "ada@x.com";
                user_role := None; user_isActive := true |} in
  let st0 := fst (fetchData (Resolved (Bare [ada])) (Resolved []) init) in
  let st := fst (handleSubmit (Resolved ada) (openCreateModal st0)) in
  reachable st
  /\ users st = [ada; ada]
  /\ deliverable st (ClickDelete "u1" true (Resolved tt))
  /\ users (fst (handleDelete "u1" true (Resolved tt) st)) = []
  /\ length (users (fst (handleDelete "u1" true (Resolved tt) st))) + 1
     <> length (users st).
Proof.
  intros ada st0 st. split; [|split; [|split; [|split]]].
  - apply (reachable_step _ (Submit (Resolved ada))); [|exact I].
    apply (reachable_step _ ClickAdd); [|exact I].
    apply (reachable_step init (Mount (Resolved (Bare [ada])) (Resolved [])));
      [exact reachable_init | exact I].
  - reflexivity.
  - simpl. now left.
  - reflexivity.
  - simpl. discriminate.
Qed.

(** C6, as amended: when the confirmation is declined the state is unchanged
    and the only effect is the confirmation dialog, so no API call; when it
    is confirmed and the delete call succeeds, every entry with the given
    identifier is removed and the other entries stay, in their order: the
    new roster is a sublist of the old one, holds the entries of the other
    identifiers and none of the given one, and is shorter by the number of
    times the identifier occurred.  When the identifier occurs once, which
    is the case when it is in a roster of distinct identifiers, that is
    exactly one entry taken out, the entries before and after it
    unchanged. *)
Theorem handleDelete_removes_the_user (st : State) (userId : string) :
  (forall res,
     fst (handleDelete userId false res st) = st
     /\ forallb (fun e => negb (isApiCall e)) (snd (handleDelete userId false res st))
        = true)
  /\ (forall data,
        let st' := fst (handleDelete userId true (Resolved data) st) in
        let occurrences := count_occ String.string_dec (map user_id (users st)) userId in
        In (ApiDelete ("/users/" +:+ userId))
           (snd (handleDelete userId true (Resolved data) st))
        /\ users st' `sublist_of` users st
        /\ (forall u, In u (users st') <-> In u (users st) /\ user_id u <> userId)
        /\ length (users st') + occurrences = length (users st)
        /\ (occurrences = 1 ->
            exists before u after,
              users st = (before ++ u :: after)%list
              /\ user_id u = userId
              /\ users st' = (before ++ after)%list
              /\ ~ In userId (map user_id (users st')))
        /\ (In userId (map user_id (users st)) ->
            List.NoDup (map user_id (users st)) ->
            occurrences = 1)).
Proof.
  split.
  - intros res. split; reflexivity.
  - intros data st' occurrences. subst st' occurrences. destruct data. simpl.
    split; [|split; [|split; [|split; [|split]]]].
    + right. now left.
    + apply filter_sublist.
    + intros u. apply filter_In_ids.
    + apply filter_other_ids_length.
    + intros Hone.
      destruct (filter_removes_single user_id userId (users st) Hone)
        as (before & u & after & Hl & Hu & Hf & Hn).
      exists before, u, after. repeat split; auto. now rewrite Hf.
    + intros Hin Hnd. now apply (proj1 (NoDup_count_occ' String.string_dec _) Hnd).
Qed.

Lemma handleDelete_removes_the_user_witness :
  let ada := {| user_id := "u1"; user_name := "Ada"; user_email := "ada@x.com";
                user_role := None; user_isActive := true |} in
  let bob := {| user_id := "u2"; user_name := "Bob"; user_email := "bob@x.com";
                user_role := None; user_isActive := false |} in
  let st := fst (fetchData (Resolved (Bare [ada; bob])) (Resolved []) init) in
  exists before u after,
    users st = (before ++ u :: after)%list
    /\ user_id u = "u2"
    /\ users (fst (handleDelete "u2" true (Resolved tt) st)) = (before ++ after)%list
    /\ ~ In "u2" (map user_id (users (fst (handleDelete "u2" true (Resolved tt) st)))).
Proof.
  intros ada bob st.
  destruct (handleDelete_removes_the_user st "u2") as [_ H].
  destruct (H tt) as (_ & _ & _ & _ & Hone & Hdistinct).
  apply Hone, Hdistinct.
  - simpl. tauto.
  - simpl. repeat constructor; simpl; intuition discriminate.
Defined.

(** ** Loading *)

(** C7: the load fails as a whole as soon as one of the two requests is
    rejected: the error text is "Failed to load data. Please check
    permissions.", the banner shows it, the error toast is shown, and the two
    lists are what they were, so empty on the first load; when both requests
    succeed the user list is the list the users response carries, in its
    "users" field or as its whole body, the role list is the body of the
    roles response, the roster shows one row per user of that list, and
    nothing is reported. *)
Theorem fetchData_joint_outcome (st : State) (usersRes : Outcome UsersBody)
  (rolesRes : Outcome (list Role)) :
  let st' := fst (fetchData usersRes rolesRes st) in
  let effs := snd (fetchData usersRes rolesRes st) in
  ((exists e, usersRes = Rejected e) \/ (exists e, rolesRes = Rejected e) ->
     error st' = "Failed to load data. Please check permissions."
     /\ banner st' = Some "Failed to load data. Please check permissions."
     /\ List.filter isToast effs = [ToastError "Could not load users."]
     /\ users st' = users st
     /\ roles st' = roles st
     /\ (st = init -> users st' = [] /\ roles st' = [] /\ renderRows st' = [])
     /\ isLoading st' = false)
  /\ (forall l r,
        usersRes = Resolved (Wrapped l) \/ usersRes = Resolved (Bare l) ->
        rolesRes = Resolved r ->
        users st' = l
        /\ roles st' = r
        /\ error st' = error st
        /\ List.filter isToast effs = []
        /\ isLoading st' = false
        /\ renderRows st' = map (fun u => (u, roleLabel u)) l).
Proof.
  intros st' effs. subst st' effs. split.
  - intros H.
    assert (Hf : fetchData usersRes rolesRes st =
                 (setIsLoading false (setError loadError (setIsLoading true st)),
                  [ApiGet "/users"; ApiGet "/roles"; ToastError "Could not load users."])).
    { destruct H as [[e ->]|[e ->]]; [reflexivity|]. destruct usersRes; reflexivity. }
    rewrite Hf. simpl.
    split; [reflexivity|]. split; [reflexivity|]. split; [reflexivity|].
    split; [reflexivity|]. split; [reflexivity|]. split; [|reflexivity].
    intros ->. repeat split; reflexivity.
  - intros l r [-> | ->] ->; simpl; repeat split; reflexivity.
Qed.

Lemma fetchData_joint_outcome_witness :
  let ada := {| user_id := "u1"; user_name := "Ada"; user_email := "ada@x.com";
                user_role := None; user_isActive := true |} in
  let denied := {| response_message := Some "Forbidden" |} in
  let st' := fst (fetchData (Resolved (Wrapped [ada])) (Rejected denied) init) in
  (banner st' = Some "Failed to load data. Please check permissions."
   /\ users st' = [] /\ roles st' = [])
  /\ users (fst (fetchData (Resolved (Wrapped [ada])) (Resolved []) init)) = [ada].
Proof.
  intros ada denied st'. split.
  - destruct (fetchData_joint_outcome init (Resolved (Wrapped [ada])) (Rejected denied))
      as [Hfail _].
    destruct Hfail as (_ & Hbanner & _ & _ & _ & Hinit & _).
    + right. now exists denied.
    + destruct (Hinit eq_refl) as (Hu & Hr & _). auto.
  - destruct (fetchData_joint_outcome init (Resolved (Wrapped [ada])) (Resolved []))
      as [_ Hok].
    apply (Hok [ada] []); [now left | reflexivity].
Defined.

(** ** Saving a user *)

Lemma roleLabel_of_role (u : User) (r : Role) :
  user_role u = Some r -> role_name r <> "" -> roleLabel u = role_name r.
Proof.
  unfold roleLabel. intros -> Hn. simpl. apply JSFacts.truthy_nonempty in Hn.
  now rewrite Hn.
Qed.

(** C9: on a successful submission the record spliced into the user list is
    the record of the server, with its identifier, name, email and active
    flag, and with the role of the loaded list that [find] gives for the
    draft's role identifier in place of its role; it is appended in create
    mode and takes the place of every entry with the edited user's
    identifier in update mode, the other entries staying where they are;
    the role found is a role of the list with that identifier, it is the
    role of the spliced record and its name is the label of the row; when
    the list has no such role the spliced record has no role and its row
    shows "No Role". *)
Theorem submit_success_splices_user (st : State) (savedUser : User) :
  let roleObj := findRole (roles st) (roleId (formData st)) in
  let joined := {| user_id := user_id savedUser; user_name := user_name savedUser;
                   user_email := user_email savedUser; user_role := roleObj;
                   user_isActive := user_isActive savedUser |} in
  let st' := fst (handleSubmit (Resolved savedUser) st) in
  (editingUser st = None -> users st' = (users st ++ [joined])%list)
  /\ (forall editing, editingUser st = Some editing ->
        length (users st') = length (users st)
        /\ forall i u, nth_error (users st) i = Some u ->
             nth_error (users st') i
             = Some (if JS.strict_eq (user_id u) (user_id editing) then joined else u))
  /\ (forall r, roleObj = Some r ->
        In r (roles st) /\ role_id r = roleId (formData st)
        /\ user_role joined = Some r
        /\ (role_name r <> "" -> roleLabel joined = role_name r)
        /\ (isLoading st = false -> editingUser st = None -> role_name r <> "" ->
            In (joined, role_name r) (renderRows st')))
  /\ (roleObj = None <-> forall r, In r (roles st) -> role_id r <> roleId (formData st))
  /\ (roleObj = None ->
        user_role joined = None /\ roleLabel joined = "No Role"
        /\ (isLoading st = false -> editingUser st = None ->
            In (joined, "No Role") (renderRows st')))
  /\ isModalOpen st' = false.
Proof.
  intros roleObj joined st'.
  assert (Hrows : isLoading st = false -> editingUser st = None ->
                  In (joined, roleLabel joined) (renderRows st')).
  { intros Hl He. subst st'. unfold handleSubmit, renderRows. rewrite He. simpl.
    rewrite Hl. apply in_map_iff. exists joined. split; [reflexivity|].
    apply in_or_app. right. now left. }
  subst st'. unfold handleSubmit.
  split; [|split; [|split; [|split; [|split]]]].
  - intros ->. reflexivity.
  - intros editing ->. simpl. split; [apply length_map|].
    intros i u Hi. rewrite nth_error_map, Hi. reflexivity.
  - intros r Hr. destruct (findRole_Some _ _ _ Hr) as [Hin Hid].
    split; [exact Hin|]. split; [exact Hid|]. split; [exact Hr|].
    assert (Hlabel : role_name r <> "" -> roleLabel joined = role_name r)
      by (apply roleLabel_of_role; exact Hr).
    split; [exact Hlabel|].
    intros Hl He Hn. rewrite <- (Hlabel Hn). now apply Hrows.
  - apply findRole_None.
  - intros Hnone.
    assert (Hlabel : roleLabel joined = "No Role")
      by (apply roleLabel_no_role; exact Hnone).
    split; [exact Hnone|]. split; [exact Hlabel|].
    intros Hl He. rewrite <- Hlabel. now apply Hrows.
  - destruct (editingUser st); reflexivity.
Qed.

Lemma submit_success_splices_user_witness :
  let r1 := {| role_id := "r1"; role_name := "Admin"; role_code := "ADMIN";
               role_permissions := ∅ |} in
  let ada := {| user_id := "u1"; user_name := "Ada"; user_email := "ada@x.com";
                user_role := None; user_isActive := true |} in
  let st0 := fst (fetchData (Resolved (Bare [])) (Resolved [r1]) init) in
  let st := setFormData {| name := "Ada"; email := "ada@x.com"; password := "secret1";
                           roleId := "r1" |} (openCreateModal st0) in
  let joined := {| user_id := "u1"; user_name := "Ada"; user_email := "ada@x.com";
                   user_role := Some r1; user_isActive := true |} in
  users (fst (handleSubmit (Resolved ada) st)) = [joined]
  /\ In (joined, "Admin") (renderRows (fst (handleSubmit (Resolved ada) st))).
Proof.
  intros r1 ada st0 st joined.
  destruct (submit_success_splices_user st ada) as (Hcreate & _ & Hfound & _).
  split; [apply Hcreate; reflexivity|].
  destruct (Hfound r1 eq_refl) as (_ & _ & _ & _ & Hrow).
  apply Hrow; [reflexivity | reflexivity | discriminate].
Defined.

End UsersPageSpec.

(** * Further properties of the role screen *)

Module RolesPageExtra.
Import Auth RolesPage RolesPageSpec.

(** ** The code input *)

Lemma app_empty_r (s : string) : s +:+ "" = s.
Proof. induction s as [|c s IH]; [reflexivity|]. now rewrite JSFacts.app_cons, IH. Qed.

Lemma app_assoc (s t u : string) : (s +:+ t) +:+ u = s +:+ (t +:+ u).
Proof.
  induction s as [|c s IH]; [reflexivity|]. now rewrite !JSFacts.app_cons, IH.
Qed.

Lemma length_app (s t : string) :
  String.length (s +:+ t) = String.length s + String.length t.
Proof.
  induction s as [|c s IH]; [reflexivity|]. rewrite JSFacts.app_cons. simpl. now rewrite IH.
Qed.

Lemma replaceWhiteSpaceRuns_fixed (s : string) :
  JS.noWhiteSpace s -> JS.replaceWhiteSpaceRuns s = s.
Proof.
  intros H. rewrite <- (app_empty_r s) at 1.
  rewrite JSFacts.replaceWhiteSpaceRuns_text by exact H.
  simp replaceWhiteSpaceRuns. apply app_empty_r.
Qed.

Lemma toUpperCase_idem (s : string) : JS.toUpperCase (JS.toUpperCase s) = JS.toUpperCase s.
Proof.
  induction s as [|c s IH]; simpl; [reflexivity|].
  now rewrite JSFacts.toUpperCaseUnit_idem, IH.
Qed.

Lemma toUpperCase_spec_collapseRuns (b : bool) (s : string) :
  JS.toUpperCase (JS.spec_collapseRuns b s) = JS.spec_collapseRuns b (JS.toUpperCase s).
Proof.
  revert b. induction s as [|c s IH]; intros b; simpl; [reflexivity|].
  rewrite JSFacts.toUpperCaseUnit_whitespace.
  destruct (JS.isWhiteSpace c); [destruct b|]; simpl; now rewrite ?IH.
Qed.

(** Upper-casing and collapsing the runs can be done in either order. *)
Lemma toUpperCase_replaceWhiteSpaceRuns (s : string) :
  JS.toUpperCase (JS.replaceWhiteSpaceRuns s) = JS.replaceWhiteSpaceRuns (JS.toUpperCase s).
Proof. rewrite !JSFacts.replaceWhiteSpaceRuns_spec. apply toUpperCase_spec_collapseRuns. Qed.

Lemma codeInputValue_noWhiteSpace (v : string) : JS.noWhiteSpace (codeInputValue v).
Proof. apply JSFacts.replaceWhiteSpaceRuns_no_whitespace. Qed.

Lemma codeInputValue_toUpperCase (v : string) :
  JS.toUpperCase (codeInputValue v) = codeInputValue v.
Proof.
  unfold codeInputValue. now rewrite toUpperCase_replaceWhiteSpaceRuns, toUpperCase_idem.
Qed.

Lemma spec_collapseRuns_length (b : bool) (s : string) :
  String.length (JS.spec_collapseRuns b s) <= String.length s.
Proof.
  revert b. induction s as [|c s IH]; intros b; simpl; [lia|].
  destruct (JS.isWhiteSpace c); [destruct b|]; simpl.
  - specialize (IH true). lia.
  - specialize (IH true). lia.
  - specialize (IH false). lia.
Qed.

Lemma length_toUpperCase (s : string) :
  String.length (JS.toUpperCase s) = String.length s.
Proof. induction s as [|c s IH]; simpl; [reflexivity | now rewrite IH]. Qed.

Lemma codeInputValue_stable (v : string) :
  codeInputValue (codeInputValue v) = codeInputValue v.
Proof.
  unfold codeInputValue at 1. rewrite codeInputValue_toUpperCase.
  apply replaceWhiteSpaceRuns_fixed, codeInputValue_noWhiteSpace.
Qed.

(** X1: the transformation of the code input is idempotent: applied to a
    value it has produced it gives that value back, so the controlled
    input shows what is stored. *)
Theorem codeInputValue_idempotent (v : string) (Hascii : JS.ascii_only v = true) :
  codeInputValue (codeInputValue v) = codeInputValue v.
Proof. apply codeInputValue_stable. Qed.

Lemma codeInputValue_idempotent_witness :
  codeInputValue (codeInputValue "Field   staff 2") = codeInputValue "Field   staff 2".
Proof. apply codeInputValue_idempotent. reflexivity. Defined.

(** X2: for an entered value of 7-bit ASCII characters, the stored code is
    never longer than the entered value; it is empty only for the empty
    value; a value that is nothing but whitespace is stored as one
    underscore. *)
Theorem codeInputValue_length_and_blank (v : string) (Hascii : JS.ascii_only v = true) :
  String.length (codeInputValue v) <= String.length v
  /\ (codeInputValue v = "" <-> v = "")
  /\ (JS.allWhiteSpace v -> v <> "" -> codeInputValue v = "_").
Proof.
  split; [|split].
  - unfold codeInputValue. rewrite JSFacts.replaceWhiteSpaceRuns_spec.
    rewrite <- (length_toUpperCase v). apply spec_collapseRuns_length.
  - split; [|now intros ->].
    destruct v as [|c v]; [reflexivity|]. unfold codeInputValue. simpl.
    simp replaceWhiteSpaceRuns. destruct (JS.isWhiteSpace _); discriminate.
  - intros Hw Hne. unfold codeInputValue.
    rewrite <- (app_empty_r (JS.toUpperCase v)).
    rewrite JSFacts.replaceWhiteSpaceRuns_run; [reflexivity | | | reflexivity].
    + now apply JSFacts.toUpperCase_allWhiteSpace.
    + now apply JSFacts.toUpperCase_nonempty.
Qed.

Lemma codeInputValue_length_and_blank_witness :
  String.length (codeInputValue "a b ") <= 4 /\ codeInputValue "   " = "_".
Proof.
  split.
  - apply (codeInputValue_length_and_blank "a b "). reflexivity.
  - apply (codeInputValue_length_and_blank "   "); try reflexivity.
    + repeat constructor.
    + discriminate.
Defined.

(** X3: for a 7-bit ASCII character typed at the end of a code of 7-bit
    ASCII characters that the input has produced, the stored code grows by
    one code unit: an underscore for a whitespace character, the upper-case
    form of any other.  Whitespace typed key by key therefore gives one
    underscore per key, where a pasted run gives one for the run. *)
Theorem typeCharacter_appends_one_unit (st : State) (c : ascii)
  (Hascii : JS.ascii_unit c = true)
  (Hcur : JS.ascii_only (code (formData st)) = true)
  (Hcode : codeInputValue (code (formData st)) = code (formData st)) :
  code (formData (typeCharacter c st))
  = code (formData st)
    +:+ String (if JS.isWhiteSpace c then "_"%char else JS.toUpperCaseUnit c) "".
Proof.
  unfold typeCharacter, onCodeChange. simpl. set (cur := code (formData st)) in *.
  assert (Hws : JS.noWhiteSpace cur) by (rewrite <- Hcode; apply codeInputValue_noWhiteSpace).
  assert (Hup : JS.toUpperCase cur = cur)
    by (rewrite <- Hcode; apply codeInputValue_toUpperCase).
  unfold codeInputValue. rewrite JSFacts.toUpperCase_app, Hup.
  rewrite JSFacts.replaceWhiteSpaceRuns_text by exact Hws. f_equal.
  simpl. simp replaceWhiteSpaceRuns. rewrite JSFacts.toUpperCaseUnit_whitespace.
  destruct (JS.isWhiteSpace c); simpl; now simp replaceWhiteSpaceRuns.
Qed.

Lemma typeCharacter_appends_one_unit_witness :
  let st := typeCharacter " " (typeCharacter "a" (openCreateModal init)) in
  code (formData st) = "A_"
  /\ code (formData (typeCharacter " " st)) = "A__"
  /\ codeInputValue "a  " = "A_".
Proof.
  intros st. split; [reflexivity|]. split; [|reflexivity].
  apply (typeCharacter_appends_one_unit st " "); reflexivity.
Defined.

(** ** Toggling *)

Lemma setFlag_restore (ps : PermissionSet) (a : Action) (b : bool) :
  setFlag (setFlag ps a b) a (getFlag ps a) = ps.
Proof. destruct ps, a; reflexivity. Qed.


(** X4: toggling the same (module, action) pair twice gives the draft back
    as it was. *)
Theorem togglePermission_twice (fd : FormData) (module : string) (action : Action)
  (ps : PermissionSet) (Hentry : permissions fd !! module = Some ps) :
  exists fd', togglePermission module action fd = Some fd'
              /\ togglePermission module action fd' = Some fd.
Proof.
  unfold togglePermission. rewrite Hentry. eexists. split; [reflexivity|].
  simpl. rewrite lookup_insert_eq. f_equal. destruct fd as [n c p]. simpl in *. f_equal.
  rewrite insert_insert_eq, getFlag_setFlag_eq, negb_involutive, setFlag_restore.
  now apply insert_id.
Qed.

Lemma togglePermission_twice_witness :
  exists fd', togglePermission "recce" Acreate (formData init) = Some fd'
              /\ togglePermission "recce" Acreate fd' = Some (formData init).
Proof.
  apply (togglePermission_twice (formData init) "recce" Acreate emptyPermissionSet).
  reflexivity.
Defined.


(** ** Saving a role *)

(** X6: when the save request of a role succeeds, the modal is closed and the
    draft is left as it is; the list is the one of the refetch, or, when the
    refetch is rejected, the old list, with the success toast followed by
    the load-error toast.  When the save request is rejected nothing but
    the submitting flag is written, no refetch is issued, and the one toast
    is the error with the message of the server or "Operation failed". *)
Theorem handleSubmit_outcome (st : State) :
  (forall u refetch,
     let st' := fst (handleSubmit (Resolved u) refetch st) in
     let effs := snd (handleSubmit (Resolved u) refetch st) in
     isModalOpen st' = false
     /\ isSubmitting st' = false
     /\ formData st' = formData st
     /\ editingRole st' = editingRole st
     /\ roles st' = match refetch with Resolved data => data | Rejected _ => roles st end
     /\ List.filter isToast effs
        = ToastSuccess (match editingRole st with
                        | Some _ => "Role updated successfully"
                        | None => "Role created successfully"
                        end)
          :: match refetch with
             | Resolved _ => []
             | Rejected _ => [ToastError "Failed to load roles."]
             end
     /\ In (ApiGet "/roles") effs)
  /\ (forall e refetch,
        let effs := snd (handleSubmit (Rejected e) refetch st) in
        fst (handleSubmit (Rejected e) refetch st) = setIsSubmitting false st
        /\ ~ In (ApiGet "/roles") effs
        /\ List.filter isToast effs
           = [ToastError (JS.or_else (response_message e) "Operation failed")]).
Proof.
  split.
  - intros u refetch. unfold handleSubmit.
    destruct refetch, (editingRole st) eqn:E; simpl; repeat split; auto.
  - intros e refetch. unfold handleSubmit. simpl. split; [reflexivity|]. split.
    + destruct (editingRole st); simpl; intuition discriminate.
    + destruct (editingRole st); reflexivity.
Qed.

Lemma handleSubmit_outcome_witness :
  let st := openCreateModal init in
  let down := {| response_message := None |} in
  roles (fst (handleSubmit (Resolved tt) (Rejected down) st)) = []
  /\ List.filter isToast (snd (handleSubmit (Resolved tt) (Rejected down) st))
     = [ToastSuccess "Role created successfully"; ToastError "Failed to load roles."].
Proof.
  intros st down.
  destruct (handleSubmit_outcome st) as [H _].
  destruct (H tt (Rejected down)) as (_ & _ & _ & _ & Hroles & Htoasts & _).
  split; [exact Hroles | exact Htoasts].
Defined.

(** In create mode the code of the draft has no whitespace. *)
Lemma reachable_create_code (st : State) :
  reachable st -> editingRole st = None -> JS.noWhiteSpace (code (formData st)).
Proof.
  induction 1 as [|st ev st' effs Hr IH Hd Hs]; [intros _; constructor|].
  destruct ev; simpl in Hs.
  - next_state Hs. destruct (fetchData_form res st) as [-> ->]. exact IH.
  - next_state Hs. intros _. constructor.
  - next_state Hs. discriminate.
  - next_state Hs. destruct (handleDelete_form roleId confirmed res st) as [-> ->]. exact IH.
  - next_state Hs. exact IH.
  - next_state Hs. intros _. apply codeInputValue_noWhiteSpace.
  - destruct (togglePermission module action (formData st)) as [fd|] eqn:E; [|discriminate].
    next_state Hs. simpl. rewrite (proj2 (togglePermission_code _ _ _ _ E)). exact IH.
  - next_state Hs. destruct (handleSubmit_form res refetch st) as [-> ->]. exact IH.
  - next_state Hs. exact IH.
Qed.

(** X7: in every state the screen reaches, the first effect of a submission
    is the save request, and its body is the draft with an entry for every
    known module: in edit mode a PUT to the edited role's path whose code is
    the stored code of that role, in create mode a POST to /roles whose code
    has no whitespace. *)
Theorem handleSubmit_request (st : State) (res : Outcome unit)
  (refetch : Outcome (list Role)) (Hr : reachable st) :
  coversModules (formData st)
  /\ (forall role, editingRole st = Some role ->
        code (formData st) = role_code role
        /\ exists rest, snd (handleSubmit res refetch st)
                        = ApiPut ("/roles/" +:+ role_id role) (formData st) :: rest)
  /\ (editingRole st = None ->
        JS.noWhiteSpace (code (formData st))
        /\ exists rest, snd (handleSubmit res refetch st)
                        = ApiPost "/roles" (formData st) :: rest).
Proof.
  split; [now apply reachable_coversModules|]. split.
  - intros role He. split; [now apply reachable_code_frozen|].
    unfold handleSubmit. rewrite He. destruct res; [destruct (fetchData _ _)|]; eauto.
  - intros He. split; [now apply reachable_create_code|].
    unfold handleSubmit. rewrite He. destruct res; [destruct (fetchData _ _)|]; eauto.
Qed.

Lemma handleSubmit_request_witness :
  let st := onCodeChange "field staff" (openCreateModal init) in
  JS.noWhiteSpace (code (formData st))
  /\ exists rest, snd (handleSubmit (Resolved tt) (Resolved []) st)
                  = ApiPost "/roles" (formData st) :: rest.
Proof.
  intros st.
  assert (Hr : reachable st).
  { eapply (reachable_step _ (TypeCode "field staff")).
    - eapply (reachable_step init ClickCreate);
        [exact reachable_init | exact I | reflexivity].
    - reflexivity.
    - reflexivity. }
  destruct (handleSubmit_request st (Resolved tt) (Resolved []) Hr) as (_ & _ & H).
  apply H. reflexivity.
Defined.

(** ** The modules of the draft *)

Lemma togglePermission_lookup_ne (fd fd' : FormData) (module : string) (action : Action)
  (module' : string) :
  togglePermission module action fd = Some fd' -> module' <> module ->
  permissions fd' !! module' = permissions fd !! module'.
Proof.
  unfold togglePermission. destruct (permissions fd !! module); [|discriminate].
  intros [= <-] Hne. simpl. now rewrite lookup_insert_ne.
Qed.

Lemma lookup_default_other (module : string) :
  ~ In module MODULES -> generateDefaultPermissions !! module = None.
Proof.
  intros H. rewrite lookup_generateDefaultPermissions. now rewrite bool_decide_eq_false_2.
Qed.

Lemma default_modules (module : string) :
  is_Some (generateDefaultPermissions !! module) <-> In module MODULES.
Proof.
  split; [|apply coversModules_default].
  intros [ps H]. rewrite lookup_generateDefaultPermissions in H.
  case_bool_decide; [assumption | discriminate].
Qed.

(** X8: in every state the screen reaches, a draft in create mode has an
    entry for the known modules and for no other key; a draft in edit mode
    carries, for every key outside the known modules, what the stored role
    has for it, unchanged: no checkbox reaches such an entry, and a save
    sends it back as it came. *)
Theorem draft_modules_by_mode (st : State) (Hr : reachable st) :
  (editingRole st = None ->
     forall module, is_Some (permissions (formData st) !! module) <-> In module MODULES)
  /\ (forall role, editingRole st = Some role ->
        forall module, ~ In module MODULES ->
          permissions (formData st) !! module = role_permissions role !! module).
Proof.
  induction Hr as [|st ev st' effs Hr [IHc IHe] Hd Hs].
  { split; [intros _; apply default_modules | discriminate]. }
  destruct ev; simpl in Hs.
  - next_state Hs. destruct (fetchData_form res st) as [-> ->]. auto.
  - next_state Hs. split; [intros _; apply default_modules | discriminate].
  - next_state Hs. split; [discriminate|]. simpl. intros r [= <-] module Hn.
    rewrite lookup_mergedPermissions.
    destruct (role_permissions role !! module); [reflexivity|].
    now apply lookup_default_other.
  - next_state Hs. destruct (handleDelete_form roleId confirmed res st) as [-> ->]. auto.
  - next_state Hs. auto.
  - next_state Hs. auto.
  - destruct (togglePermission module action (formData st)) as [fd|] eqn:E; [|discriminate].
    next_state Hs. simpl in *. split.
    + intros He m. rewrite (togglePermission_lookup _ _ _ _ m E). now apply IHc.
    + intros role He m Hn.
      rewrite (togglePermission_lookup_ne _ _ _ _ m E) by congruence. now apply IHe.
  - next_state Hs. destruct (handleSubmit_form res refetch st) as [-> ->]. auto.
  - next_state Hs. auto.
Qed.

Lemma draft_modules_by_mode_witness :
  let old := {| view := true; create := false; edit := false; delete := false |} in
  let role := {| role_id := "r5"; role_name := "Auditor"; role_code := "AUDITOR";
                 role_permissions := {[ "billing" := old ]} |} in
  let st := openEditModal role (fst (fetchData (Resolved [role]) init)) in
  permissions (formData st) !! "billing" = Some old.
Proof.
  intros old role st.
  assert (Hr : reachable st).
  { eapply (reachable_step _ (ClickEdit role)).
    - eapply (reachable_step init (Mount (Resolved [role])));
        [exact reachable_init | exact I | reflexivity].
    - simpl. now left.
    - reflexivity. }
  destruct (draft_modules_by_mode st Hr) as [_ H].
  rewrite (H role eq_refl "billing"); [reflexivity|].
  simpl. intuition discriminate.
Defined.

(** X9: a role opened in the editor and saved at once is sent to the path of
    its identifier with its own name and code and with the merged
    permissions: its stored entries as they are, and the all-false
    permission set for every known module it has no entry for. *)
Theorem openEditModal_then_submit (role : Role) (st : State) (res : Outcome unit)
  (refetch : Outcome (list Role)) :
  exists body rest,
    snd (handleSubmit res refetch (openEditModal role st))
    = ApiPut ("/roles/" +:+ role_id role) body :: rest
    /\ name body = role_name role
    /\ code body = role_code role
    /\ (forall module ps, role_permissions role !! module = Some ps ->
          permissions body !! module = Some ps)
    /\ (forall module, In module MODULES -> role_permissions role !! module = None ->
          permissions body !! module = Some emptyPermissionSet)
    /\ (forall module, ~ In module MODULES -> role_permissions role !! module = None ->
          permissions body !! module = None).
Proof.
  exists (formData (openEditModal role st)).
  assert (exists rest, snd (handleSubmit res refetch (openEditModal role st))
                       = ApiPut ("/roles/" +:+ role_id role)
                           (formData (openEditModal role st)) :: rest) as [rest Hrest].
  { unfold handleSubmit. simpl. destruct res; [destruct refetch|]; eauto. }
  exists rest. split; [exact Hrest|]. simpl. repeat split.
  - intros module ps H. now rewrite lookup_mergedPermissions, H.
  - intros module Hin H. rewrite lookup_mergedPermissions, H.
    now apply lookup_default_module.
  - intros module Hn H. rewrite lookup_mergedPermissions, H.
    now apply lookup_default_other.
Qed.

Lemma openEditModal_then_submit_witness :
  let role := {| role_id := "r6"; role_name := "Surveyor"; role_code := "SURVEYOR";
                 role_permissions :=
                   {[ "recce" := {| view := true; create := true; edit := true;
                                    delete := false |} ]} |} in
  exists body rest,
    snd (handleSubmit (Resolved tt) (Resolved [role]) (openEditModal role init))
    = ApiPut "/roles/r6" body :: rest
    /\ permissions body !! "installation" = Some emptyPermissionSet.
Proof.
  intros role.
  destruct (openEditModal_then_submit role init (Resolved tt) (Resolved [role]))
    as (body & rest & Hput & _ & _ & _ & Hdef & _).
  exists body, rest. split; [exact Hput|].
  apply Hdef; [simpl; tauto | reflexivity].
Defined.

(** ** Deleting a role *)

Lemma NoDup_map_filter {A B} (f : A -> B) (p : A -> bool) (l : list A) :
  List.NoDup (map f l) -> List.NoDup (map f (List.filter p l)).
Proof.
  induction l as [|a l IH]; simpl; [auto|].
  intros H. inversion H as [|? ? Ha Hl]; subst.
  destruct (p a); simpl; [|auto]. constructor; [|auto].
  intros Hin. apply Ha. apply in_map_iff in Hin as (x & Hx & Hxin).
  apply filter_In in Hxin as [Hxin _]. apply in_map_iff. eauto.
Qed.

(** X10: deleting a role: declined, the state is unchanged and no request is
    made; confirmed and rejected, the list is unchanged and the error toast
    carries the message of the server or "Failed to delete role"; confirmed
    and resolved, the list loses the entries of that identifier and no
    other, which in a list of distinct identifiers that holds it is exactly
    one entry, and the identifiers stay distinct. *)
Theorem handleDelete_role (st : State) (roleId : string) :
  (forall res,
     fst (handleDelete roleId false res st) = st
     /\ forallb (fun e => negb (isApiCall e)) (snd (handleDelete roleId false res st))
        = true)
  /\ (forall e,
        fst (handleDelete roleId true (Rejected e) st) = st
        /\ List.filter isToast (snd (handleDelete roleId true (Rejected e) st))
           = [ToastError (JS.or_else (response_message e) "Failed to delete role")])
  /\ (forall u,
        let st' := fst (handleDelete roleId true (Resolved u) st) in
        (forall r, In r (roles st') <-> In r (roles st) /\ role_id r <> roleId)
        /\ (List.NoDup (map role_id (roles st)) ->
            List.NoDup (map role_id (roles st'))
            /\ (In roleId (map role_id (roles st)) ->
                exists before r after,
                  roles st = (before ++ r :: after)%list
                  /\ role_id r = roleId
                  /\ roles st' = (before ++ after)%list))).
Proof.
  split; [|split].
  - intros res. split; reflexivity.
  - intros e. split; reflexivity.
  - intros u st'. subst st'. simpl. split.
    + intros r. rewrite filter_In, negb_true_iff, JSFacts.strict_eq_false. reflexivity.
    + intros Hnd. split; [now apply NoDup_map_filter|].
      intros Hin.
      destruct (UsersPageSpec.filter_removes_the_entry role_id roleId (roles st) Hnd Hin)
        as (before & r & after & Hl & Hr & Hf & _).
      exists before, r, after. auto.
Qed.

Lemma handleDelete_role_witness :
  let a := {| role_id := "r1"; role_name := "Admin"; role_code := "ADMIN";
              role_permissions := ∅ |} in
  let b := {| role_id := "r2"; role_name := "Staff"; role_code := "STAFF";
              role_permissions := ∅ |} in
  let st := fst (fetchData (Resolved [a; b]) init) in
  exists before r after,
    roles st = (before ++ r :: after)%list
    /\ role_id r = "r1"
    /\ roles (fst (handleDelete "r1" true (Resolved tt) st)) = (before ++ after)%list.
Proof.
  intros a b st.
  destruct (handleDelete_role st "r1") as (_ & _ & H).
  destruct (H tt) as [_ Hnd].
  apply Hnd.
  - simpl. repeat constructor; simpl; intuition discriminate.
  - simpl. tauto.
Defined.

(** X11: in a list of distinct identifiers, no click on a delete button that
    the screen shows removes a role whose code is "super_admin" or
    "SUPER_ADMIN", whatever the answers to the confirmation and to the
    request. *)
Theorem reserved_role_survives_delete_click (st : State) (roleId : string)
  (confirmed : bool) (res : Outcome unit) (role : Role)
  (Hnd : List.NoDup (map role_id (roles st)))
  (Hclick : deliverable st (ClickDelete roleId confirmed res))
  (Hin : In role (roles st))
  (Hcode : role_code role = "super_admin" \/ role_code role = "SUPER_ADMIN") :
  In role (roles (fst (handleDelete roleId confirmed res st))).
Proof.
  unfold handleDelete. destruct confirmed; simpl; [|exact Hin].
  destruct res; simpl; [|exact Hin].
  apply filter_In. split; [exact Hin|].
  apply negb_true_iff, JSFacts.strict_eq_false. intros Heq.
  destruct Hclick as (role' & Hin' & Hc).
  destruct (cardControls_delete _ _ Hc eq_refl) as [Hg Hid].
  injection Hid as Hid.
  assert (role = role') by (eapply NoDup_map_In_inj; eauto; congruence).
  subst role'. apply deleteGuard_false in Hcode. congruence.
Qed.

Lemma reserved_role_survives_delete_click_witness :
  let root := {| role_id := "r0"; role_name := "Super Admin"; role_code := "SUPER_ADMIN";
                 role_permissions := ∅ |} in
  let staff := {| role_id := "r2"; role_name := "Staff"; role_code := "STAFF";
                  role_permissions := ∅ |} in
  let st := fst (fetchData (Resolved [root; staff]) init) in
  In root (roles (fst (handleDelete "r2" true (Resolved tt) st))).
Proof.
  intros root staff st.
  apply (reserved_role_survives_delete_click st "r2" true (Resolved tt) root).
  - simpl. repeat constructor; simpl; intuition discriminate.
  - exists staff. split; [simpl; tauto | right; now left].
  - now left.
  - now right.
Defined.

(** ** The access highlights *)

Lemma length_permissionEntries (role : Role) :
  length (permissionEntries role) = size (role_permissions role).
Proof. unfold permissionEntries. now rewrite length_map_to_list. Qed.

Lemma size_covering (m : gmap string PermissionSet) :
  (forall module, In module MODULES -> is_Some (m !! module)) -> 4 <= size m.
Proof.
  intros H. rewrite <- size_dom.
  assert (Hsub : (list_to_set MODULES : gset string) ⊆ dom m).
  { intros k Hk. apply elem_of_list_to_set, list_elem_of_In in Hk.
    apply elem_of_dom. now apply H. }
  apply subseteq_size in Hsub. rewrite size_list_to_set in Hsub; [exact Hsub|].
  apply NoDup_ListNoDup. unfold MODULES.
  repeat constructor; simpl; intuition discriminate.
Qed.

Lemma In_firstn {A} (n : nat) (l : list A) (x : A) : In x (firstn n l) -> In x l.
Proof. intros H. rewrite <- (firstn_skipn n l). apply in_or_app. now left. Qed.

(** X12: the card of a role shows at most three entries of its permissions,
    each one a stored entry with the dots of its four flags, and the line
    with the number of further modules exactly when there are more than
    three; shown and further entries add up to the entries of the role.  A
    role that has an entry for every known module shows three entries and
    the line, with a number of at least one. *)
Theorem accessHighlights_count (role : Role) :
  let n := size (role_permissions role) in
  length (accessHighlights role) = Nat.min 3 n
  /\ (forall key dots, In (key, dots) (accessHighlights role) ->
        exists val, role_permissions role !! key = Some val /\ dots = statusDots val)
  /\ (moreModules role = None <-> n <= 3)
  /\ length (accessHighlights role) + from_option id 0 (moreModules role) = n
  /\ ((forall module, In module MODULES -> is_Some (role_permissions role !! module)) ->
      length (accessHighlights role) = 3
      /\ exists k, moreModules role = Some k /\ 1 <= k).
Proof.
  intros n. subst n. pose proof (length_permissionEntries role) as Hlen.
  assert (Hl : length (accessHighlights role) = Nat.min 3 (size (role_permissions role))).
  { unfold accessHighlights. now rewrite length_map, length_firstn, Hlen. }
  assert (Hm : moreModules role
               = if (3 <? size (role_permissions role))%nat
                 then Some (size (role_permissions role) - 3) else None).
  { unfold moreModules. now rewrite Hlen. }
  split; [exact Hl|]. split; [|split; [|split]].
  - intros key dots Hin. unfold accessHighlights in Hin.
    apply in_map_iff in Hin as ([k val] & [= <- <-] & Hin).
    apply In_firstn in Hin. exists val. split; [|reflexivity].
    apply elem_of_map_to_list. now apply list_elem_of_In.
  - rewrite Hm. destruct (Nat.ltb_spec 3 (size (role_permissions role)));
      split; intros; try congruence; lia.
  - rewrite Hl, Hm.
    destruct (Nat.ltb_spec 3 (size (role_permissions role)));
      unfold from_option, id; lia.
  - intros Hc. apply size_covering in Hc. rewrite Hl, Hm.
    destruct (Nat.ltb_spec 3 (size (role_permissions role))); [|lia].
    split; [lia|]. eexists. split; [reflexivity | lia].
Qed.

Lemma accessHighlights_count_witness :
  let role := {| role_id := "r7"; role_name := "Manager"; role_code := "MANAGER";
                 role_permissions := permissions (formData (openCreateModal init)) |} in
  length (accessHighlights role) = 3
  /\ exists k, moreModules role = Some k /\ 1 <= k.
Proof.
  intros role.
  destruct (accessHighlights_count role) as (_ & _ & _ & _ & H).
  apply H. intros module Hin. now apply coversModules_default.
Defined.

End RolesPageExtra.

(** * Further properties of the user screen *)

Module UsersPageExtra.
Import Auth UsersPage UsersPageSpec.

(** ** Opening the editor and saving *)

Lemma roleIdOf_spec (user : User) :
  roleIdOf user = match user_role user with Some r => role_id r | None => "" end.
Proof.
  unfold roleIdOf. destruct (user_role user) as [r|]; [|reflexivity]. simpl.
  destruct (JS.truthy (role_id r)) eqn:E; [reflexivity|].
  unfold JS.truthy in E. apply negb_false_iff, String.eqb_eq in E. now rewrite E.
Qed.

(** X13: a user opened in the editor and saved at once is sent to the path
    of its identifier with its own name and email, the identifier of its
    role, or the empty string when it has none, and no password field. *)
Theorem openEditModal_then_submit_payload (user : User) (st : State) (res : Outcome User) :
  exists rest,
    snd (handleSubmit res (openEditModal user st))
    = ApiPut ("/users/" +:+ user_id user)
        {| payload_name := user_name user; payload_email := user_email user;
           payload_roleId := match user_role user with
                             | Some r => role_id r
                             | None => ""
                             end;
           payload_password := None |} :: rest.
Proof.
  unfold handleSubmit. simpl. unfold buildPayload. simpl. rewrite roleIdOf_spec.
  destruct res; eauto.
Qed.

Lemma findRole_of_listed (l : list Role) (r : Role) :
  List.NoDup (map role_id l) -> In r l -> findRole l (role_id r) = Some r.
Proof.
  intros Hnd Hin. destruct (findRole l (role_id r)) as [r'|] eqn:E.
  - apply findRole_Some in E as [Hin' Hid]. f_equal.
    eapply RolesPageSpec.NoDup_map_In_inj; eauto.
  - exfalso. exact (proj1 (findRole_None _ _) E r Hin eq_refl).
Qed.

(** X14: when the role of a user is one of the loaded roles and their
    identifiers are distinct, opening the user in the editor and saving
    without touching the role select joins the saved record with that same
    role. *)
Theorem edit_keeps_role (st : State) (user saved : User) (r : Role)
  (Hrole : user_role user = Some r) (Hin : In r (roles st))
  (Hnd : List.NoDup (map role_id (roles st))) :
  users (fst (handleSubmit (Resolved saved) (openEditModal user st)))
  = map (fun u => if JS.strict_eq (user_id u) (user_id user)
                  then withRole saved (Some r) else u) (users st).
Proof.
  unfold handleSubmit. simpl. unfold buildPayload. simpl.
  rewrite roleIdOf_spec, Hrole, findRole_of_listed by assumption. reflexivity.
Qed.

Lemma edit_keeps_role_witness :
  let r1 := {| role_id := "r1"; role_name := "Admin"; role_code := "ADMIN";
               role_permissions := ∅ |} in
  let ada := {| user_id := "u1"; user_name := "Ada"; user_email := "ada@x.com";
                user_role := Some r1; user_isActive := true |} in
  let saved := {| user_id := "u1"; user_name := "Ada"; user_email := "ada@x.com";
                  user_role := None; user_isActive := true |} in
  let st := fst (fetchData (Resolved (Bare [ada])) (Resolved [r1]) init) in
  users (fst (handleSubmit (Resolved saved) (openEditModal ada st))) = [ada].
Proof.
  intros r1 ada saved st.
  rewrite (edit_keeps_role st ada saved r1); [reflexivity | reflexivity | now left |].
  simpl. repeat constructor. simpl. tauto.
Defined.



(** ** The identifiers of the roster *)

Lemma map_replace_ids (l : list User) (id : string) (new : User) :
  user_id new = id ->
  map user_id (map (fun u => if JS.strict_eq (user_id u) id then new else u) l)
  = map user_id l.
Proof.
  intros Hid. rewrite map_map. apply map_ext. intros u.
  destruct (JS.strict_eq (user_id u) id) eqn:E; [|reflexivity].
  apply JSFacts.strict_eq_true in E. simpl. congruence.
Qed.

Lemma map_replace_absent (l : list User) (id : string) (new : User) :
  ~ In id (map user_id l) ->
  map (fun u => if JS.strict_eq (user_id u) id then new else u) l = l.
Proof.
  induction l as [|a l IH]; simpl; [reflexivity|].
  intros Hn. destruct (JS.strict_eq (user_id a) id) eqn:E.
  - apply JSFacts.strict_eq_true in E. tauto.
  - f_equal. apply IH. tauto.
Qed.

(** X16: a roster of distinct identifiers stays one through a delete,
    whatever its answers; through an update whose saved record has the
    identifier of the edited user, which leaves the sequence of identifiers
    as it is; and through a create whose saved record has an identifier the
    roster does not hold.  A create that returns an identifier already in
    the roster leaves two entries with it. *)
Theorem roster_identifiers_stay_distinct (st : State)
  (Hnd : List.NoDup (map user_id (users st))) :
  (forall userId confirmed res,
     List.NoDup (map user_id (users (fst (handleDelete userId confirmed res st)))))
  /\ (forall editing saved, editingUser st = Some editing ->
        user_id saved = user_id editing ->
        map user_id (users (fst (handleSubmit (Resolved saved) st)))
        = map user_id (users st))
  /\ (forall saved, editingUser st = None ->
        (~ In (user_id saved) (map user_id (users st)) <->
         List.NoDup (map user_id (users (fst (handleSubmit (Resolved saved) st)))))).
Proof.
  split; [|split].
  - intros userId confirmed res. unfold handleDelete.
    destruct confirmed; simpl; [|exact Hnd]. destruct res; simpl; [|exact Hnd].
    now apply RolesPageExtra.NoDup_map_filter.
  - intros editing saved He Hid. unfold handleSubmit. rewrite He. simpl.
    now apply map_replace_ids.
  - intros saved He. unfold handleSubmit. rewrite He. simpl.
    rewrite map_app. simpl. split.
    + intros Hn. apply NoDup_ListNoDup, NoDup_app.
      split; [now apply NoDup_ListNoDup|]. split.
      * intros x Hx Hx'. apply list_elem_of_In in Hx, Hx'.
        destruct Hx' as [<-|[]]. exact (Hn Hx).
      * apply NoDup_singleton.
    + intros H Hin. apply NoDup_ListNoDup, NoDup_app in H as (_ & Hd & _).
      apply (Hd (user_id saved)); apply list_elem_of_In; [exact Hin | now left].
Qed.

Lemma roster_identifiers_stay_distinct_witness :
  let ada := {| user_id := "u1"; user_name := "Ada"; user_email := "ada@x.com";
                user_role := None; user_isActive := true |} in
  let bob := {| user_id := "u2"; user_name := "Bob"; user_email := "bob@x.com";
                user_role := None; user_isActive := true |} in
  let st := openCreateModal (fst (fetchData (Resolved (Bare [ada])) (Resolved []) init)) in
  List.NoDup (map user_id (users (fst (handleSubmit (Resolved bob) st))))
  /\ ~ List.NoDup (map user_id (users (fst (handleSubmit (Resolved ada) st)))).
Proof.
  intros ada bob st.
  assert (Hnd : List.NoDup (map user_id (users st))).
  { simpl. repeat constructor. simpl. tauto. }
  destruct (roster_identifiers_stay_distinct st Hnd) as (_ & _ & H).
  split.
  - apply (H bob eq_refl). simpl. intuition discriminate.
  - intros Hdup. apply (H ada eq_refl) in Hdup. apply Hdup. simpl. tauto.
Defined.

(** ** Edge cases of delete and update *)

Lemma filter_idem {A} (p : A -> bool) (l : list A) :
  List.filter p (List.filter p l) = List.filter p l.
Proof.
  induction l as [|a l IH]; simpl; [reflexivity|].
  destruct (p a) eqn:E; simpl; rewrite ?E, IH; reflexivity.
Qed.

(** X17: a confirmed delete whose request is rejected leaves the state as it
    is and shows "Failed to delete user", whatever message the server sent;
    a confirmed delete of an identifier the roster does not hold still
    issues the request and leaves the roster as it is; deleting the same
    identifier a second time changes nothing more. *)
Theorem handleDelete_edge_cases (st : State) (userId : string) :
  (forall e,
     fst (handleDelete userId true (Rejected e) st) = st
     /\ List.filter isToast (snd (handleDelete userId true (Rejected e) st))
        = [ToastError "Failed to delete user"])
  /\ (~ In userId (map user_id (users st)) ->
      forall u,
        users (fst (handleDelete userId true (Resolved u) st)) = users st
        /\ In (ApiDelete ("/users/" +:+ userId))
             (snd (handleDelete userId true (Resolved u) st)))
  /\ (forall u u',
        users (fst (handleDelete userId true (Resolved u')
                      (fst (handleDelete userId true (Resolved u) st))))
        = users (fst (handleDelete userId true (Resolved u) st))).
Proof.
  split; [|split].
  - intros e. split; reflexivity.
  - intros Hn u. simpl. split; [now apply filter_other_ids | right; now left].
  - intros u u'. simpl. apply filter_idem.
Qed.

Lemma handleDelete_edge_cases_witness :
  let ada := {| user_id := "u1"; user_name := "Ada"; user_email := "ada@x.com";
                user_role := None; user_isActive := true |} in
  let st := fst (fetchData (Resolved (Bare [ada])) (Resolved []) init) in
  users (fst (handleDelete "u9" true (Resolved tt) st)) = [ada]
  /\ In (ApiDelete "/users/u9") (snd (handleDelete "u9" true (Resolved tt) st)).
Proof.
  intros ada st.
  destruct (handleDelete_edge_cases st "u9") as (_ & H & _).
  apply H. simpl. intuition discriminate.
Defined.

(** X18: a successful update of a user whose identifier the roster no longer
    holds leaves the roster as it is: the saved record is dropped, while
    the success toast is shown and the modal is closed. *)
Theorem update_of_absent_user (st : State) (editing saved : User)
  (Hedit : editingUser st = Some editing)
  (Habsent : ~ In (user_id editing) (map user_id (users st))) :
  let st' := fst (handleSubmit (Resolved saved) st) in
  users st' = users st
  /\ isModalOpen st' = false
  /\ List.filter isToast (snd (handleSubmit (Resolved saved) st))
     = [ToastSuccess "User updated successfully!"].
Proof.
  unfold handleSubmit. rewrite Hedit. simpl.
  split; [now apply map_replace_absent | split; reflexivity].
Qed.

Lemma update_of_absent_user_witness :
  let ada := {| user_id := "u1"; user_name := "Ada"; user_email := "ada@x.com";
                user_role := None; user_isActive := true |} in
  let st0 := fst (fetchData (Resolved (Bare [ada])) (Resolved []) init) in
  let st := fst (handleDelete "u1" true (Resolved tt) (openEditModal ada st0)) in
  reachable st
  /\ users (fst (handleSubmit (Resolved ada) st)) = [].
Proof.
  intros ada st0 st. split.
  - apply (reachable_step _ (ClickDelete "u1" true (Resolved tt))).
    + apply (reachable_step _ (ClickEdit ada)).
      * apply (reachable_step init (Mount (Resolved (Bare [ada])) (Resolved [])));
          [exact reachable_init | exact I].
      * simpl. now left.
    + simpl. now left.
  - apply (update_of_absent_user st ada ada); [reflexivity|].
    simpl. tauto.
Defined.

(** ** The error banner and the password of the draft *)

Lemma step_error (st : State) (ev : Event) :
  error (fst (step st ev)) = error st \/ error (fst (step st ev)) = loadError.
Proof.
  destruct ev; simpl; auto.
  - destruct usersRes, rolesRes; simpl; auto.
  - destruct confirmed; simpl; auto. destruct res; simpl; auto.
  - unfold handleSubmit. destruct (editingUser st), res; simpl; auto.
Qed.

(** X19: no event clears the error banner: after any event the error text
    is the one before or the load-error text, so a banner that is shown
    stays shown, also after a later load that succeeds; in every state the
    screen reaches the banner is absent or shows the load-error text. *)
Theorem error_banner_persists :
  (forall st ev,
     banner st = Some loadError -> banner (fst (step st ev)) = Some loadError)
  /\ (forall st u r,
        banner st = Some loadError ->
        banner (fst (fetchData (Resolved u) (Resolved r) st)) = Some loadError)
  /\ (forall st, reachable st -> banner st = None \/ banner st = Some loadError).
Proof.
  assert (Hkeep : forall st ev,
            banner st = Some loadError -> banner (fst (step st ev)) = Some loadError).
  { intros st ev. unfold banner.
    destruct (JS.truthy (error st)) eqn:E; [|discriminate]. intros [= He].
    destruct (step_error st ev) as [-> | ->]; [now rewrite E, He | reflexivity]. }
  split; [exact Hkeep|]. split.
  - intros st u r. apply (Hkeep st (Mount (Resolved u) (Resolved r))).
  - induction 1 as [|st ev Hr IH Hd]; [now left|].
    destruct IH as [IH|IH]; [|right; now apply Hkeep].
    unfold banner in *. destruct (step_error st ev) as [-> | ->]; [now left | now right].
Qed.

Lemma error_banner_persists_witness :
  let denied := {| response_message := None |} in
  let st := fst (fetchData (Rejected denied) (Resolved []) init) in
  banner (fst (fetchData (Resolved (Bare [])) (Resolved []) st)) = Some loadError.
Proof.
  intros denied st.
  destruct error_banner_persists as (_ & H & _).
  apply H. reflexivity.
Defined.

(** X20: the password of the draft is empty after the editor is opened, for
    a new user and for an existing one, and no event but typing in the
    password field changes it from empty; a submission that follows such an
    event issues one request, the POST to /users or the PUT to the path of
    the edited user, and the body of that request has no password field. *)
Theorem password_only_typed (st : State) (ev : Event) :
  password (formData (openCreateModal st)) = ""
  /\ (forall user, password (formData (openEditModal user st)) = "")
  /\ ((forall value, ev <> TypePassword value) ->
      password (formData st) = "" ->
      let st1 := fst (step st ev) in
      password (formData st1) = ""
      /\ forall res, exists body rest,
           snd (handleSubmit res st1)
           = match editingUser st1 with
             | Some editing => ApiPut ("/users/" +:+ user_id editing) body
             | None => ApiPost "/users" body
             end :: rest
           /\ payload_password body = None
           /\ payload_name body = name (formData st1)
           /\ payload_email body = email (formData st1)
           /\ payload_roleId body = roleId (formData st1)
           /\ forallb (fun e => negb (isApiCall e)) rest = true).
Proof.
  split; [reflexivity|]. split; [reflexivity|].
  intros Hev Hpw st1.
  assert (Hstep : password (formData st1) = "").
  { subst st1. destruct ev; simpl; auto.
    - destruct usersRes, rolesRes; simpl; auto.
    - destruct confirmed; simpl; auto. destruct res; simpl; auto.
    - exfalso. now apply (Hev value).
    - unfold handleSubmit. destruct (editingUser st), res; simpl; auto. }
  split; [exact Hstep|]. intros res.
  exists (buildPayload (formData st1)).
  assert (Hpw1 : payload_password (buildPayload (formData st1)) = None)
    by now apply buildPayload_password.
  unfold handleSubmit. destruct (editingUser st1), res; simpl;
    eexists; (split; [reflexivity|]); repeat split; exact Hpw1.
Qed.

Lemma password_only_typed_witness :
  let ada := {| user_id := "u1"; user_name := "Ada"; user_email := "ada@x.com";
                user_role := None; user_isActive := true |} in
  let st := openEditModal ada init in
  exists body rest,
    snd (handleSubmit (Resolved ada) (fst (step st (TypeName "Ada L."))))
    = ApiPut "/users/u1" body :: rest
    /\ payload_password body = None
    /\ payload_name body = "Ada L.".
Proof.
  intros ada st.
  destruct (password_only_typed st (TypeName "Ada L.")) as (_ & _ & H).
  destruct H as [_ H]; [discriminate | reflexivity |].
  destruct (H (Resolved ada)) as (body & rest & Hreq & Hpw & Hname & _).
  exists body, rest. split; [exact Hreq|]. split; [exact Hpw | exact Hname].
Defined.

End UsersPageExtra.
